(** * LingoPop: the raw-PCM decoder, audio playback with its fallback,
      dictionary lookup and the notebook toggle

    A shallow embedding of [services/geminiService.ts] (decode,
    decodeAudioData, playAudio, lookupTerm) and of the [toggleSave] handler
    of the application component, with the properties of the specification
    stated over it.

    Platform objects the source calls but does not define (typed arrays,
    the Web Audio [createBuffer], [atob], the remote model) are modelled
    after their standards; every such definition says so. *)

From Stdlib Require Import ZArith QArith Qround Lia.
From Stdlib.Strings Require Import Byte.
From stdpp Require Import base tactics option list strings pretty.

Local Open Scope Z_scope.

(** ** Results of a call

    A call returns a value, throws, or does not come back (a [for] loop whose
    bound is [Infinity]).  An [async] function that throws yields a rejected
    promise, which [await] rethrows in the caller: both are [Throw]. *)

Inductive exn : Type :=
  | RangeError            (* typed-array constructor: misaligned byte length *)
  | NotSupportedError     (* Web Audio: argument zero, negative, out of range *)
  | IndexSizeError        (* Web Audio: channel index out of range *)
  | InvalidCharacterError (* atob: not a base64 string *)
  | SyntaxError           (* JSON.parse *)
  | TypeError             (* reading a property of null *)
  | JsError (message : string)  (* new Error(message) *)
  | ServiceError (message : string). (* the remote call: network, quota, ... *)

Inductive result (A : Type) : Type :=
  | Ok (a : A)
  | Throw (e : exn)
  | Diverges.
Arguments Ok {A} a.
Arguments Throw {A} e.
Arguments Diverges {A}.

#[global] Instance result_ret : MRet result := @Ok.
#[global] Instance result_bind : MBind result := λ A B f m,
  match m with
  | Ok a => f a
  | Throw e => Throw e
  | Diverges => Diverges
  end.

(** The errors by which the platform rejects an argument of a call. *)
Definition InvalidArgument (e : exn) : bool :=
  match e with
  | RangeError | NotSupportedError | IndexSizeError => true
  | _ => false
  end.

(** ** JavaScript numbers, as far as the decoder meets them

    Finite values are exact rationals: the decoder divides integers of at
    most 16 bits by 2^15 and integer lengths by integer channel counts; the
    first kind is exact in binary32 and binary64, the second is only compared
    with integers and truncated.  Signed zero is not distinguished. *)

Inductive number : Type :=
  | Fin (q : Q)
  | PosInf
  | NegInf
  | NaN.

Definition of_Z (z : Z) : number := Fin (inject_Z z).

(** ToNumber of an element read: [undefined] (a read out of range) is NaN. *)
Definition to_number (v : option Z) : number :=
  match v with
  | Some z => of_Z z
  | None => NaN
  end.

(** The [/] operator. *)
Definition num_div (x y : number) : number :=
  match x, y with
  | NaN, _ | _, NaN => NaN
  | Fin a, Fin b =>
      if Qeq_bool b 0 then
        if Qeq_bool a 0 then NaN
        else if Qle_bool 0 a then PosInf else NegInf
      else Fin (a / b)
  | Fin _, (PosInf | NegInf) => Fin 0
  | PosInf, Fin b => if Qle_bool 0 b then PosInf else NegInf
  | NegInf, Fin b => if Qle_bool 0 b then NegInf else PosInf
  | (PosInf | NegInf), (PosInf | NegInf) => NaN
  end.

(** Truncation toward zero. *)
Definition Qtruncate (q : Q) : Z :=
  if Qle_bool 0 q then Qfloor q else Qceiling q.

(** Conversion of an argument to a Web IDL integer: NaN and the infinities
    become 0, a finite value is truncated. *)
Definition to_integer (x : number) : Z :=
  match x with
  | Fin q => Qtruncate q
  | _ => 0
  end.

(** The values [i] taken by [for (let i = 0; i < bound; i++)] whose body
    changes neither [i] nor [bound]: the integers from 0 that are below the
    bound, in increasing order; [None] when the loop never ends. *)
Definition for_range (bound : number) : option (list Z) :=
  match bound with
  | Fin q => Some (seqZ 0 (Qceiling q))
  | PosInf => None
  | NegInf | NaN => Some []
  end.

(** The loop itself, over a state [S] that the body updates. *)
Fixpoint for_each {S : Type} (body : S → Z → result S) (s : S) (l : list Z)
  : result S :=
  match l with
  | [] => Ok s
  | i :: l' => s' ← body s i; for_each body s' l'
  end.

Definition for_lt {S : Type} (bound : number) (body : S → Z → result S)
    (s : S) : result S :=
  match for_range bound with
  | Some l => for_each body s l
  | None => Diverges
  end.

(** ** Typed arrays

    A [Uint8Array] is the list of its bytes; it is taken to span its whole
    [ArrayBuffer] (as the arrays made by [decode] do), so [data.buffer] is
    that same list. *)

Definition Uint8Array : Type := list byte.
Definition Int16Array : Type := list Z.
Definition Float32Array : Type := list number.

Definition byte_val (b : byte) : Z := Z.of_N (Byte.to_N b).

(** A 16-bit two's-complement integer from its low and high byte
    (little-endian, the byte order of the platforms the app runs on). *)
Definition int16_le (lo hi : byte) : Z :=
  let u := byte_val lo + 256 * byte_val hi in
  if u <? 32768 then u else u - 65536.

Fixpoint int16_elements (bs : list byte) : list Z :=
  match bs with
  | lo :: hi :: rest => int16_le lo hi :: int16_elements rest
  | _ => []
  end.

(** [new Int16Array(buffer)]: ECMAScript throws a RangeError when the byte
    length of the buffer is not a multiple of the element size. *)
Definition new_Int16Array (buffer : list byte) : result Int16Array :=
  if (Z.of_nat (length buffer) mod 2 =? 0) then Ok (int16_elements buffer)
  else Throw RangeError.

(** [a[k]] on a typed array: [undefined] out of range. *)
Definition get {A : Type} (a : list A) (k : Z) : option A :=
  if k <? 0 then None else a !! Z.to_nat k.

(** [a[k] = x] on a typed array: a write out of range is ignored. *)
Definition set {A : Type} (a : list A) (k : Z) (x : A) : list A :=
  if k <? 0 then a else <[Z.to_nat k := x]> a.

(** ** Web Audio *)

Inductive AudioContextState : Type := suspended | running | closed.

(** What an implementation of Web Audio accepts beyond the ranges that
    the standard asks of every implementation (up to 32 channels; the sample
    rates 8000 to 96000): so many more channels, and rates so much lower and
    higher.  Chromium, with 32 channels and the rates 3000 to 768000, is
    [0], [5000] and [672000]. *)
Record Implementation : Type := {
  channelsBeyond32 : N;
  ratesBelow8000 : N;
  ratesAbove96000 : N
}.

Record AudioContext : Type := {
  contextSampleRate : Z;
  state : AudioContextState;
  implementation : Implementation
}.

Definition maxNumberOfChannels (ctx : AudioContext) : Z :=
  32 + Z.of_N (channelsBeyond32 (implementation ctx)).

Definition minSampleRate (ctx : AudioContext) : Z :=
  8000 - Z.of_N (ratesBelow8000 (implementation ctx)).

Definition maxSampleRate (ctx : AudioContext) : Z :=
  96000 + Z.of_N (ratesAbove96000 (implementation ctx)).

(** The nominal ranges of [createBuffer] for the channel count and the
    sample rate, at their upper and lower ends. *)
Definition in_nominal_range (ctx : AudioContext) (nChannels rate : Z) : bool :=
  (nChannels <=? maxNumberOfChannels ctx)
  && (minSampleRate ctx <=? rate) && (rate <=? maxSampleRate ctx).

Record AudioBuffer : Type := {
  numberOfChannels : Z;
  frames : Z;                       (* [buffer.length], in sample-frames *)
  sampleRate : Z;
  channels : list Float32Array
}.

(** [ctx.createBuffer(numberOfChannels, length, sampleRate)], after the Web
    Audio standard: "A NotSupportedError exception MUST be thrown if any of
    the arguments is negative, zero, or outside its nominal range"; otherwise
    the buffer is zero-initialised.  [length] arrives as a number (the
    decoder passes a quotient) and is converted to an integer first, by
    truncation.  The nominal ranges of the channel count and of the sample
    rate are those of the implementation the context belongs to; for the
    length the standard names no upper end. *)
Definition createBuffer (ctx : AudioContext) (nChannels : Z) (len : number)
    (rate : Z) : result AudioBuffer :=
  let n := to_integer len in
  if (nChannels <=? 0) || (n <=? 0) || (rate <=? 0)
     || negb (in_nominal_range ctx nChannels rate)
  then Throw NotSupportedError
  else Ok {| numberOfChannels := nChannels;
             frames := n;
             sampleRate := rate;
             channels := replicate (Z.to_nat nChannels)
                                   (replicate (Z.to_nat n) (of_Z 0)) |}.

(** [buffer.getChannelData(channel)]: IndexSizeError for a channel the buffer
    does not have.  The array returned is the buffer's own storage, so the
    writes of the caller are writes to the buffer: [setChannelData] puts the
    written array back. *)
Definition getChannelData (buffer : AudioBuffer) (channel : Z)
  : result Float32Array :=
  match get (channels buffer) channel with
  | Some a => Ok a
  | None => Throw IndexSizeError
  end.

Definition setChannelData (buffer : AudioBuffer) (channel : Z)
    (a : Float32Array) : AudioBuffer :=
  {| numberOfChannels := numberOfChannels buffer;
     frames := frames buffer;
     sampleRate := sampleRate buffer;
     channels := set (channels buffer) channel a |}.

(** ** decodeAudioData (geminiService.ts, lines 17-34) *)

Definition decodeAudioData (data : Uint8Array) (ctx : AudioContext)
    (sampleRate numChannels : Z) : result AudioBuffer :=
  dataInt16 ← new_Int16Array data;
  let frameCount :=
    num_div (of_Z (Z.of_nat (length dataInt16))) (of_Z numChannels) in
  buffer ← createBuffer ctx numChannels frameCount sampleRate;
  for_lt (of_Z numChannels) (λ buffer channel,
    channelData ← getChannelData buffer channel;
    channelData' ← for_lt frameCount (λ channelData i,
      Ok (set channelData i
            (num_div (to_number (get dataInt16 (i * numChannels + channel)))
                     (of_Z 32768))))
      channelData;
    Ok (setChannelData buffer channel channelData')) buffer.

(** ** Definitions for the proofs about the decoder *)

(** The value the inner loop writes at frame [i] of channel [channel]. *)
Definition sample (dataInt16 : Int16Array) (numChannels channel i : Z)
  : number :=
  num_div (to_number (get dataInt16 (i * numChannels + channel)))
          (of_Z 32768).

(** The buffer a successful decoding returns. *)
Definition decoded (data : Uint8Array) (rate numChannels : Z) : AudioBuffer :=
  let dataInt16 := int16_elements data in
  let n := Z.of_nat (length dataInt16) / numChannels in
  {| numberOfChannels := numChannels;
     frames := n;
     sampleRate := rate;
     channels :=
       (λ c, (λ i, sample dataInt16 numChannels c i) <$> seqZ 0 n)
         <$> seqZ 0 numChannels |}.

(** The body of the outer loop of [decodeAudioData], by itself. *)
Definition channel_round (dataInt16 : Int16Array) (numChannels : Z)
    (frameCount : number) (buffer : AudioBuffer) (channel : Z)
  : result AudioBuffer :=
  channelData ← getChannelData buffer channel;
  channelData' ← for_lt frameCount (λ channelData i,
    Ok (set channelData i
          (num_div (to_number (get dataInt16 (i * numChannels + channel)))
                   (of_Z 32768))))
    channelData;
  Ok (setChannelData buffer channel channelData').

(** A channel as [createBuffer] leaves it, and as the decoder fills it. *)
Definition silent (n : Z) : Float32Array := replicate (Z.to_nat n) (of_Z 0).

Definition filled (dataInt16 : Int16Array) (numChannels n c : Z)
  : Float32Array :=
  (λ i, sample dataInt16 numChannels c i) <$> seqZ 0 n.

Definition buffer_with (numChannels n rate : Z) (chs : list Float32Array)
  : AudioBuffer :=
  {| numberOfChannels := numChannels; frames := n; sampleRate := rate;
     channels := chs |}.

(** The inverse quantization of the round-trip property: the float times
    32768, rounded to the nearest integer (halves upward, as [Math.round]).
    It is not part of the source; the specification names it to state the
    property. *)
Definition requantize (x : number) : option Z :=
  match x with
  | Fin q => Some (Qfloor (q * 32768 + (1 # 2)))
  | _ => None
  end.

(** ** The remote model, the page and its effects *)

(** A response of [ai.models.generateContent], with the fields the source
    reads; every link of it may be missing. *)
Record Blob : Type := {
  mimeType : option string;
  data : option string
}.

Record Part : Type := {
  inlineData : option Blob;
  partText : option string
}.

Record Content : Type := { parts : option (list Part) }.

Record Candidate : Type := { content : option Content }.

Record GenerateContentResponse : Type := {
  candidates : option (list Candidate);
  text : option string
}.

(** The requests the source sends.  Each is kept by the values its template
    is filled with: the text to speak and the voice; the term and the two
    languages of the analysis prompt; the term of the image prompt. *)
Inductive request : Type :=
  | SpeechRequest (text voiceName : string)
  | AnalysisRequest (term nativeLang targetLang : string)
  | ImageRequest (term : string).

(** [Example] of the types module. *)
Record Example_ : Type := {
  target : string;
  native : string
}.

(** A value [JSON.parse] makes of the analysis that is not [null], by the
    properties the source reads: any of them may be absent (all are, on a
    number, a string, a boolean or an array). *)
Record TextData : Type := {
  td_phonetic : option string;
  td_definition : option string;
  td_examples : option (list Example_);
  td_usageGuide : option string
}.

(** What the code cannot decide for itself: the outcome of each call to the
    remote model (a response, or a rejection: network, quota, ...), of
    [atob], of [JSON.parse] (a value, [null] among them, or a SyntaxError),
    of making and resuming the audio context, of
    starting a buffer source, and the readings of the clock. *)
Record Env : Type := {
  generateContent : request → exn + GenerateContentResponse;
  atob : string → exn + string;
  JSON_parse : string → exn + option TextData;  (* [None] is [null] *)
  new_AudioContext : Z → exn + AudioContext;
  resume : AudioContext → exn + AudioContext;
  start_source : AudioContext → AudioBuffer → exn + unit;
  Date_now : nat → Z
}.

Inductive event : Type :=
  | ConsoleError (message : string) (error : exn)
  | ConsoleWarn (message : string) (error : exn)
  | Started (buffer : AudioBuffer)        (* source.start() on the buffer *)
  | Spoken (text : string).               (* speechSynthesis.speak(text) *)

(** The state the functions act on: the module variable [audioContext],
    what was sent to the console and the speakers so far, and how often the
    clock was read. *)
Record World : Type := {
  audioContext : option AudioContext;
  events : list event;
  clock_reads : nat
}.

Definition M (A : Type) : Type := World → result A * World.

#[global] Instance M_ret : MRet M := λ A a w, (Ok a, w).
#[global] Instance M_bind : MBind M := λ A B f m w,
  match m w with
  | (Ok a, w') => f a w'
  | (Throw e, w') => (Throw e, w')
  | (Diverges, w') => (Diverges, w')
  end.

Definition lift {A} (r : result A) : M A := λ w, (r, w).

Definition settle {A} (r : exn + A) : M A :=
  λ w, (match r with inl e => Throw e | inr a => Ok a end, w).

Definition throw {A} (e : exn) : M A := λ w, (Throw e, w).

(** [try { body } catch (error) { handler }] *)
Definition try_catch {A} (body : M A) (handler : exn → M A) : M A := λ w,
  match body w with
  | (Throw e, w') => handler e w'
  | r => r
  end.

Definition emit (ev : event) : M unit := λ w,
  (Ok (), {| audioContext := audioContext w;
             events := events w ++ [ev];
             clock_reads := clock_reads w |}).

Definition get_audioContext : M (option AudioContext) :=
  λ w, (Ok (audioContext w), w).

Definition set_audioContext (ctx : AudioContext) : M unit := λ w,
  (Ok (), {| audioContext := Some ctx;
             events := events w;
             clock_reads := clock_reads w |}).

Definition now (env : Env) : M Z := λ w,
  (Ok (Date_now env (clock_reads w)),
   {| audioContext := audioContext w;
      events := events w;
      clock_reads := S (clock_reads w) |}).

(** ** decode (geminiService.ts, lines 7-15)

    The binary string of [atob] has one character per byte.  Beyond the end
    of the string [charCodeAt] is NaN, which a [Uint8Array] stores as 0. *)
Definition charCodeAt (s : string) (i : Z) : byte :=
  match get (String.list_ascii_of_string s) i with
  | Some c => Ascii.byte_of_ascii c
  | None => x00
  end.

Definition decode (env : Env) (base64 : string) : M Uint8Array :=
  binaryString ← settle (atob env base64);
  let len := Z.of_nat (String.length binaryString) in
  let bytes := replicate (Z.to_nat len) x00 in
  lift (for_lt (of_Z len) (λ bytes i,
          Ok (set bytes i (charCodeAt binaryString i))) bytes).

(** ** playAudio (geminiService.ts, lines 39-84) *)

(** [response.candidates?.[0]?.content?.parts?.[0]?.inlineData?.data] *)
Definition first_inline_data (response : GenerateContentResponse)
  : option string :=
  cs ← candidates response; c ← head cs; ct ← content c;
  ps ← parts ct; p ← head ps; b ← inlineData p; data b.

(** [!base64Audio]: [undefined] and the empty string are falsy. *)
Definition falsy (s : option string) : bool :=
  match s with
  | None => true
  | Some s => bool_decide (s = EmptyString)
  end.

(** The body of the [try] block. *)
Definition playAudio_try (env : Env) (text voiceName : string) : M unit :=
  response ← settle (generateContent env (SpeechRequest text voiceName));
  let base64Audio := first_inline_data response in
  if falsy base64Audio then throw (JsError "No audio data returned") else
  current ← get_audioContext;
  ctx ← match current with
        | Some ctx => mret ctx
        | None =>
            ctx ← settle (new_AudioContext env 24000);
            _ ← set_audioContext ctx; mret ctx
        end;
  ctx ← match state ctx with
        | suspended =>
            ctx' ← settle (resume env ctx);
            _ ← set_audioContext ctx'; mret ctx'
        | _ => mret ctx
        end;
  bytes ← decode env (default EmptyString base64Audio);
  audioBuffer ← lift (decodeAudioData bytes ctx 24000 1);
  _ ← settle (start_source env ctx audioBuffer);
  emit (Started audioBuffer).

(** The [catch] block. *)
Definition playAudio_catch (text : string) (error : exn) : M unit :=
  _ ← emit (ConsoleError "Audio generation failed:" error);
  emit (Spoken text).

Definition playAudio (env : Env) (text voiceName : string) : M unit :=
  try_catch (playAudio_try env text voiceName) (playAudio_catch text).

(** ** lookupTerm (geminiService.ts, lines 88-173) *)

(** [DictionaryEntry] of the types module.  [definition] and [usageGuide]
    are declared as strings there, but [lookupTerm] copies them from the
    parsed JSON, where they may be absent. *)
Record DictionaryEntry : Type := {
  entryId : string;
  term : string;
  phonetic : option string;
  definition : option string;
  examples : list Example_;
  usageGuide : option string;
  imageUrl : option string;
  savedAt : Z
}.

(** [textResponse.text || "{}"] *)
Definition text_or_empty_object (response : GenerateContentResponse)
  : string :=
  if falsy (text response) then "{}" else default EmptyString (text response).

(** [imageResponse.candidates?.[0]?.content?.parts || []] *)
Definition parts_or_empty (response : GenerateContentResponse) : list Part :=
  default [] (cs ← candidates response; c ← head cs; ct ← content c; parts ct).

(** A value inside a template literal; [undefined] prints as its name. *)
Definition interpolate (s : option string) : string :=
  default "undefined" s.

Definition data_url (b : Blob) : string :=
  "data:" +:+ interpolate (mimeType b) +:+ ";base64," +:+ interpolate (data b).

(** The loop over the parts: the first one with inline data gives the
    image and ends the loop. *)
Fixpoint first_image (ps : list Part) : option string :=
  match ps with
  | [] => None
  | part :: ps' =>
      match inlineData part with
      | Some b => Some (data_url b)
      | None => first_image ps'
      end
  end.

Definition lookupTerm (env : Env) (term nativeLang targetLang : string)
  : M DictionaryEntry :=
  textResponse ←
    settle (generateContent env (AnalysisRequest term nativeLang targetLang));
  textData ← settle (JSON_parse env (text_or_empty_object textResponse));
  imageUrl ← try_catch
    (imageResponse ← settle (generateContent env (ImageRequest term));
     mret (first_image (parts_or_empty imageResponse)))
    (λ e,
     _ ← emit (ConsoleWarn "Image generation failed, using placeholder" e);
     mret None);
  t_id ← now env;
  t_saved ← now env;
  match textData with
  | None => throw TypeError      (* [textData.phonetic] when it is [null] *)
  | Some textData =>
      mret {| entryId := pretty t_id;
              term := term;
              savedAt := t_saved;
              phonetic := td_phonetic textData;
              definition := td_definition textData;
              examples := default [] (td_examples textData);
              usageGuide := td_usageGuide textData;
              imageUrl := imageUrl |}
  end.

(** ** toggleSave (the application component, lines 105-113) *)

(** The two pieces of component state the handler reads. *)
Record AppState : Type := {
  currentResult : option DictionaryEntry;
  notebook : list DictionaryEntry
}.

Definition setNotebook (st : AppState) (nb : list DictionaryEntry)
  : AppState :=
  {| currentResult := currentResult st; notebook := nb |}.

Definition toggleSave (st : AppState) : AppState :=
  match currentResult st with
  | None => st
  | Some cur =>
      let exists_ := list_find (λ n, term n = term cur) (notebook st) in
      match exists_ with
      | Some _ =>
          setNotebook st (filter (λ n, term n ≠ term cur) (notebook st))
      | None => setNotebook st (cur :: notebook st)
      end
  end.

(** ** Concrete inputs *)

Definition dq : string := String (Ascii.ascii_of_nat 34) EmptyString.
Definition nl : string := String (Ascii.ascii_of_nat 10) EmptyString.

Definition chromium : Implementation :=
  {| channelsBeyond32 := 0; ratesBelow8000 := 5000;
     ratesAbove96000 := 672000 |}.

Definition ctx0 : AudioContext :=
  {| contextSampleRate := 24000; state := running;
     implementation := chromium |}.

(** The same context before the page has been touched. *)
Definition ctx_suspended : AudioContext :=
  {| contextSampleRate := 24000; state := suspended;
     implementation := chromium |}.

Definition world0 : World :=
  {| audioContext := None; events := []; clock_reads := 0 |}.

Definition no_response : GenerateContentResponse :=
  {| candidates := None; text := None |}.

Definition audio_response (base64 : string) : GenerateContentResponse :=
  {| candidates := Some [ {| content := Some {| parts := Some [
       {| inlineData := Some {| mimeType := Some "audio/pcm";
                                data := Some base64 |};
          partText := None |} ] |} |} ];
     text := None |}.

Definition hola_data : TextData :=
  {| td_phonetic := Some "o-la";
     td_definition := Some "hello";
     td_examples := None;
     td_usageGuide := Some "A greeting for any time of the day." |}.

Definition json_member (key value : string) : string :=
  dq +:+ key +:+ dq +:+ ":" +:+ dq +:+ value +:+ dq.

(** The text of an analysis, which parses to [hola_data]. *)
Definition hola_json : string :=
  "{" +:+ json_member "phonetic" "o-la" +:+ ","
  +:+ json_member "definition" "hello" +:+ ","
  +:+ json_member "usageGuide" "A greeting for any time of the day." +:+ "}".

Definition no_data : TextData :=
  {| td_phonetic := None; td_definition := None; td_examples := None;
     td_usageGuide := None |}.

(** [JSON.parse] on the texts used below. *)
Definition parse_text (s : string) : exn + option TextData :=
  if bool_decide (s = hola_json) then inr (Some hola_data)
  else if bool_decide (s = "{}") then inr (Some no_data)
  else if bool_decide (s = "null") then inr None
  else inl SyntaxError.

(** A page without network: every request is rejected. *)
Definition env_offline : Env :=
  {| generateContent := λ _, inl (ServiceError "Failed to fetch");
     atob := λ _, inl InvalidCharacterError;
     JSON_parse := parse_text;
     new_AudioContext := λ rate,
       inr {| contextSampleRate := rate; state := running;
              implementation := chromium |};
     resume := λ ctx,
       inr {| contextSampleRate := contextSampleRate ctx; state := running;
              implementation := implementation ctx |};
     start_source := λ _ _, inr ();
     Date_now := λ n, 1700000000000 + Z.of_nat n |}.

(** A page whose speech requests are answered with [response], whose
    analysis requests are answered with a text that parses to [hola_data],
    and whose image requests are rejected (quota). *)
Definition env_online (response : GenerateContentResponse) : Env :=
  {| generateContent := λ req,
       match req with
       | SpeechRequest _ _ => inr response
       | AnalysisRequest _ _ _ =>
           inr {| candidates := None; text := Some hola_json |}
       | ImageRequest _ => inl (ServiceError "RESOURCE_EXHAUSTED")
       end;
     atob := λ _,
       inr (String.string_of_list_ascii
              (Ascii.ascii_of_byte <$> [x00; x00; xff; x7f]));
     JSON_parse := parse_text;
     new_AudioContext := new_AudioContext env_offline;
     resume := resume env_offline;
     start_source := start_source env_offline;
     Date_now := Date_now env_offline |}.

(** A page like [env_online], but the text of the analysis is [null]. *)
Definition env_null : Env :=
  {| generateContent := λ req,
       match req with
       | AnalysisRequest _ _ _ =>
           inr {| candidates := None; text := Some "null" |}
       | _ => generateContent (env_online no_response) req
       end;
     atob := atob env_offline;
     JSON_parse := parse_text;
     new_AudioContext := new_AudioContext env_offline;
     resume := resume env_offline;
     start_source := start_source env_offline;
     Date_now := Date_now env_offline |}.

Definition entry_of (t : string) : DictionaryEntry :=
  {| entryId := t; term := t; phonetic := None; definition := None;
     examples := []; usageGuide := None; imageUrl := None; savedAt := 0 |}.

Definition state0 : AppState :=
  {| currentResult := Some (entry_of "hola");
     notebook := [entry_of "adios"; entry_of "hola"] |}.

(** ** Definitions for the further properties *)

(** The page once [audioContext] holds [ctx]. *)
Definition with_context (w : World) (ctx : AudioContext) : World :=
  {| audioContext := Some ctx;
     events := events w;
     clock_reads := clock_reads w |}.

(** The page after further events. *)
Definition with_events (w : World) (evs : list event) : World :=
  {| audioContext := audioContext w;
     events := events w ++ evs;
     clock_reads := clock_reads w |}.

(** The bytes [decode] makes of a binary string. *)
Definition bytes_of (s : string) : Uint8Array :=
  Ascii.byte_of_ascii <$> String.list_ascii_of_string s.

(** A page whose speech requests are answered with audio data that [atob]
    turns into the bytes [bs]. *)
Definition env_bytes (bs : list byte) : Env :=
  {| generateContent := generateContent (env_online (audio_response "AAAA"));
     atob := λ _,
       inr (String.string_of_list_ascii (Ascii.ascii_of_byte <$> bs));
     JSON_parse := JSON_parse env_offline;
     new_AudioContext := new_AudioContext env_offline;
     resume := resume env_offline;
     start_source := start_source env_offline;
     Date_now := Date_now env_offline |}.

(** The end of the [try] block of [playAudio], from the decoding on, with
    the context [ctx] in hand. *)
Definition playAudio_from (env : Env) (ctx : AudioContext) (base64 : string)
  : M unit :=
  bytes ← decode env base64;
  audioBuffer ← lift (decodeAudioData bytes ctx 24000 1);
  _ ← settle (start_source env ctx audioBuffer);
  emit (Started audioBuffer).

(** The [try] block of [playAudio] once the response holds audio data and a
    context [c] is at hand: a suspended context is resumed first. *)
Definition playAudio_resumed (env : Env) (c : AudioContext) (base64 : string)
  : M unit := λ w,
  match state c with
  | suspended =>
      match resume env c with
      | inl e => (Throw e, w)
      | inr c' => playAudio_from env c' base64 (with_context w c')
      end
  | _ => playAudio_from env c base64 w
  end.

(** What the image step of [lookupTerm] leaves: the image, and the page
    with the warning of a rejected request. *)
Definition image_step (env : Env) (term : string) (w : World)
  : option string * World :=
  match generateContent env (ImageRequest term) with
  | inl e =>
      (None,
       with_events w
         [ConsoleWarn "Image generation failed, using placeholder" e])
  | inr imageResponse => (first_image (parts_or_empty imageResponse), w)
  end.

(** The entry [lookupTerm] builds from the parsed text, the image and two
    readings of the clock, the first of them being reading number [n]. *)
Definition built_entry (env : Env) (term : string) (textData : TextData)
    (image : option string) (n : nat) : DictionaryEntry :=
  {| entryId := pretty (Date_now env n);
     term := term;
     savedAt := Date_now env (S n);
     phonetic := td_phonetic textData;
     definition := td_definition textData;
     examples := default [] (td_examples textData);
     usageGuide := td_usageGuide textData;
     imageUrl := image |}.

(** The page after two more readings of the clock. *)
Definition after_two_reads (w : World) : World :=
  {| audioContext := audioContext w;
     events := events w;
     clock_reads := S (S (clock_reads w)) |}.

(** [!!notebook.find(n => n.term === currentResult.term)], the state of the
    save icon (the application component, line 266). *)
Definition saveIcon_filled (cur : DictionaryEntry)
    (nb : list DictionaryEntry) : bool :=
  match list_find (λ n, term n = term cur) nb with
  | Some _ => true
  | None => false
  end.

(** A page that answers every request: the analysis with a text that parses
    to [hola_data], the image request with the parts [ps]. *)
Definition env_image (ps : list Part) : Env :=
  {| generateContent := λ req,
       match req with
       | ImageRequest _ =>
           inr {| candidates :=
                    Some [ {| content := Some {| parts := Some ps |} |} ];
                  text := None |}
       | _ => generateContent (env_online no_response) req
       end;
     atob := atob env_offline;
     JSON_parse := JSON_parse (env_online no_response);
     new_AudioContext := new_AudioContext env_offline;
     resume := resume env_offline;
     start_source := start_source env_offline;
     Date_now := Date_now env_offline |}.

Definition text_part : Part :=
  {| inlineData := None; partText := Some "Here is the picture." |}.

Definition png_part : Part :=
  {| inlineData := Some {| mimeType := Some "image/png";
                           data := Some "iVBORw0KGgo=" |};
     partText := None |}.

(** ** The application component: state and handlers

    The component keeps its state in [useState] cells.  A handler is modelled
    from the state of the render it was made in to the state once it has
    finished (or waits for ever), no other handler running in between; the
    cells [currentResult] and [notebook] are those of [AppState]. *)

Inductive ViewState : Type :=
  | ONBOARDING | HOME | RESULT | NOTEBOOK | STORY | FLASHCARDS.

Record Language : Type := {
  code : string;
  name : string;
  flag : string
}.

Inductive Role : Type := user | model.

Record ChatMessage : Type := {
  role : Role;
  messageText : string
}.

(** [StoryResult] of the types module, as [JSON.parse] gives it. *)
Record StoryResult : Type := {
  title : option string;
  storyContent : option string
}.

(** A chat of the SDK, by the instruction it was created with. *)
Record Chat : Type := { systemInstruction : string }.

Record Page : Type := {
  view : ViewState;
  nativeLang : Language;
  targetLang : Language;
  query : string;
  isLoading : bool;
  appState : AppState;
  story : option StoryResult;
  isGeneratingStory : bool;
  chatSession : option Chat;
  chatHistory : list ChatMessage;
  isChatOpen : bool;
  chatInput : string;
  isChatLoading : bool
}.

Definition setView (v : ViewState) (p : Page) : Page :=
  {| view := v; nativeLang := nativeLang p; targetLang := targetLang p;
     query := query p; isLoading := isLoading p; appState := appState p;
     story := story p; isGeneratingStory := isGeneratingStory p;
     chatSession := chatSession p; chatHistory := chatHistory p;
     isChatOpen := isChatOpen p; chatInput := chatInput p;
     isChatLoading := isChatLoading p |}.

Definition setIsLoading (b : bool) (p : Page) : Page :=
  {| view := view p; nativeLang := nativeLang p; targetLang := targetLang p;
     query := query p; isLoading := b; appState := appState p;
     story := story p; isGeneratingStory := isGeneratingStory p;
     chatSession := chatSession p; chatHistory := chatHistory p;
     isChatOpen := isChatOpen p; chatInput := chatInput p;
     isChatLoading := isChatLoading p |}.

Definition setCurrentResult (r : option DictionaryEntry) (p : Page) : Page :=
  {| view := view p; nativeLang := nativeLang p; targetLang := targetLang p;
     query := query p; isLoading := isLoading p;
     appState := {| currentResult := r; notebook := notebook (appState p) |};
     story := story p; isGeneratingStory := isGeneratingStory p;
     chatSession := chatSession p; chatHistory := chatHistory p;
     isChatOpen := isChatOpen p; chatInput := chatInput p;
     isChatLoading := isChatLoading p |}.

Definition setStory (st : option StoryResult) (p : Page) : Page :=
  {| view := view p; nativeLang := nativeLang p; targetLang := targetLang p;
     query := query p; isLoading := isLoading p; appState := appState p;
     story := st; isGeneratingStory := isGeneratingStory p;
     chatSession := chatSession p; chatHistory := chatHistory p;
     isChatOpen := isChatOpen p; chatInput := chatInput p;
     isChatLoading := isChatLoading p |}.

Definition setIsGeneratingStory (b : bool) (p : Page) : Page :=
  {| view := view p; nativeLang := nativeLang p; targetLang := targetLang p;
     query := query p; isLoading := isLoading p; appState := appState p;
     story := story p; isGeneratingStory := b;
     chatSession := chatSession p; chatHistory := chatHistory p;
     isChatOpen := isChatOpen p; chatInput := chatInput p;
     isChatLoading := isChatLoading p |}.

Definition setChatSession (c : option Chat) (p : Page) : Page :=
  {| view := view p; nativeLang := nativeLang p; targetLang := targetLang p;
     query := query p; isLoading := isLoading p; appState := appState p;
     story := story p; isGeneratingStory := isGeneratingStory p;
     chatSession := c; chatHistory := chatHistory p;
     isChatOpen := isChatOpen p; chatInput := chatInput p;
     isChatLoading := isChatLoading p |}.

Definition setChatHistory (h : list ChatMessage) (p : Page) : Page :=
  {| view := view p; nativeLang := nativeLang p; targetLang := targetLang p;
     query := query p; isLoading := isLoading p; appState := appState p;
     story := story p; isGeneratingStory := isGeneratingStory p;
     chatSession := chatSession p; chatHistory := h;
     isChatOpen := isChatOpen p; chatInput := chatInput p;
     isChatLoading := isChatLoading p |}.

Definition setChatInput (i : string) (p : Page) : Page :=
  {| view := view p; nativeLang := nativeLang p; targetLang := targetLang p;
     query := query p; isLoading := isLoading p; appState := appState p;
     story := story p; isGeneratingStory := isGeneratingStory p;
     chatSession := chatSession p; chatHistory := chatHistory p;
     isChatOpen := isChatOpen p; chatInput := i;
     isChatLoading := isChatLoading p |}.

Definition setIsChatLoading (b : bool) (p : Page) : Page :=
  {| view := view p; nativeLang := nativeLang p; targetLang := targetLang p;
     query := query p; isLoading := isLoading p; appState := appState p;
     story := story p; isGeneratingStory := isGeneratingStory p;
     chatSession := chatSession p; chatHistory := chatHistory p;
     isChatOpen := isChatOpen p; chatInput := chatInput p;
     isChatLoading := b |}.

(** What the handlers meet besides [Env]: [String.prototype.trim], the
    answer of a chat to a message ([result.text], or a rejection), the answer
    to the story request (kept by the values its template is filled with:
    the words and the two languages), and [JSON.parse] on the story text. *)
Record Services : Type := {
  env : Env;
  trim : string → string;
  sendMessage : Chat → string → exn + option string;
  generateStory : string → string → string → exn + GenerateContentResponse;
  JSON_parse_story : string → exn + StoryResult
}.

(** What the user is shown outside the page, and [console.error(error)]. *)
Inductive ui_event : Type :=
  | Alert (message : string)
  | LoggedError (error : exn).

Record UI : Type := {
  page : Page;
  world : World;
  shown : list ui_event
}.

(** ** createChatSession (geminiService.ts, lines 177-184) *)
Definition createChatSession (initialSystemInstruction : string) : Chat :=
  {| systemInstruction := initialSystemInstruction |}.

(** ** generateStoryFromNotes (geminiService.ts, lines 188-219) *)

(** [notes.map(n => n.term).join(", ")] *)
Definition story_words (notes : list DictionaryEntry) : string :=
  String.concat ", " (term <$> notes).

(** The text parsed when the response has none. *)
Definition story_fallback : string :=
  "{" +:+ dq +:+ "title" +:+ dq +:+ ": " +:+ dq +:+ "Error" +:+ dq +:+ ", "
  +:+ dq +:+ "content" +:+ dq +:+ ": " +:+ dq
  +:+ "Could not generate story." +:+ dq +:+ "}".

Definition generateStoryFromNotes (sv : Services)
    (notes : list DictionaryEntry) (nativeLang targetLang : string)
  : exn + StoryResult :=
  let words := story_words notes in
  match generateStory sv words nativeLang targetLang with
  | inl e => inl e
  | inr response =>
      JSON_parse_story sv
        (if falsy (text response) then story_fallback
         else default EmptyString (text response))
  end.

(** ** handleSearch (the application component, lines 76-103) *)

Definition tutor_instruction (term nativeName targetName : string) : string :=
  nl +:+ "        You are a helpful language tutor assistant. " +:+ nl
  +:+ "        The user is currently looking at the word: "
  +:+ dq +:+ term +:+ dq +:+ "." +:+ nl
  +:+ "        The user speaks " +:+ nativeName +:+ " and is learning "
  +:+ targetName +:+ "." +:+ nl
  +:+ "        Answer questions about this specific word, its usage, or "
  +:+ "grammar casually." +:+ nl +:+ "      ".

Definition greeting (term : string) : ChatMessage :=
  {| role := model;
     messageText :=
       "Hi! Ask me anything about " +:+ dq +:+ term +:+ dq +:+ "! 👋" |}.

Definition handleSearch (sv : Services) (u : UI) : UI :=
  let p := page u in
  if falsy (Some (trim sv (query p))) then u else
  let p1 := setView HOME (setIsLoading true p) in
  match lookupTerm (env sv) (query p) (name (nativeLang p))
          (name (targetLang p)) (world u) with
  | (Ok result, w') =>
      let session :=
        createChatSession
          (tutor_instruction (term result) (name (nativeLang p))
             (name (targetLang p))) in
      let p2 :=
        setChatHistory [greeting (term result)]
          (setChatSession (Some session)
             (setView RESULT (setCurrentResult (Some result) p1))) in
      {| page := setIsLoading false p2; world := w'; shown := shown u |}
  | (Throw error, w') =>
      {| page := setIsLoading false p1;
         world := w';
         shown := shown u
                  ++ [LoggedError error;
                      Alert "Oops! Something went wrong finding that word."] |}
  | (Diverges, w') => {| page := p1; world := w'; shown := shown u |}
  end.

(** ** handleChatSend (the application component, lines 115-132) *)

Definition handleChatSend (sv : Services) (u : UI) : UI :=
  let p := page u in
  match chatSession p with
  | None => u
  | Some session =>
      if falsy (Some (trim sv (chatInput p))) then u else
      let userMsg := chatInput p in
      let p1 :=
        setIsChatLoading true
          (setChatHistory
             (chatHistory p ++ [ {| role := user; messageText := userMsg |} ])
             (setChatInput EmptyString p)) in
      match sendMessage sv session userMsg with
      | inr resultText =>
          let reply :=
            if falsy resultText then "I didn't catch that."
            else default EmptyString resultText in
          {| page :=
               setIsChatLoading false
                 (setChatHistory
                    (chatHistory p1
                     ++ [ {| role := model; messageText := reply |} ]) p1);
             world := world u;
             shown := shown u |}
      | inl error =>
          {| page := setIsChatLoading false p1;
             world := world u;
             shown := shown u ++ [LoggedError error] |}
      end
  end.

(** ** handleGenerateStory (the application component, lines 134-149) *)

Definition handleGenerateStory (sv : Services) (u : UI) : UI :=
  let p := page u in
  if (length (notebook (appState p)) <? 3)%nat then
    {| page := p;
       world := world u;
       shown := shown u
                ++ [Alert
                      "Add at least 3 words to your notebook to create a story!"]
    |}
  else
    let p1 := setView STORY (setIsGeneratingStory true p) in
    match generateStoryFromNotes sv (notebook (appState p)) (name (nativeLang p))
            (name (targetLang p)) with
    | inr result =>
        {| page := setIsGeneratingStory false (setStory (Some result) p1);
           world := world u;
           shown := shown u |}
    | inl error =>
        {| page := setIsGeneratingStory false p1;
           world := world u;
           shown := shown u ++ [LoggedError error] |}
    end.

(** ** Concrete page *)

Definition english : Language :=
  {| code := "en"; name := "English"; flag := "GB" |}.

Definition spanish : Language :=
  {| code := "es"; name := "Spanish"; flag := "ES" |}.

Definition page0 : Page :=
  {| view := HOME; nativeLang := english; targetLang := spanish;
     query := "hola"; isLoading := false;
     appState := {| currentResult := None;
               notebook := [entry_of "adios"; entry_of "gracias"] |};
     story := None; isGeneratingStory := false;
     chatSession :=
       Some (createChatSession (tutor_instruction "adios" "English" "Spanish"));
     chatHistory := [greeting "adios"];
     isChatOpen := true; chatInput := "plural?"; isChatLoading := false |}.

Definition ui0 : UI := {| page := page0; world := world0; shown := [] |}.

(** Services of a page that is online: [trim] leaves words alone and makes
    the empty string of a run of spaces; the chat answers; the story request
    is rejected. *)
Definition services0 : Services :=
  {| env := env_online no_response;
     trim := λ s, if bool_decide (s = "   ") then EmptyString else s;
     sendMessage := λ _ _, inr (Some "adioses");
     generateStory := λ _ _ _, inl (ServiceError "RESOURCE_EXHAUSTED");
     JSON_parse_story := λ _, inl SyntaxError |}.

(** The page with a query of three spaces and a blank chat input. *)
Definition blank_page : Page :=
  {| view := HOME; nativeLang := english; targetLang := spanish;
     query := "   "; isLoading := false;
     appState := appState page0;
     story := None; isGeneratingStory := false;
     chatSession := chatSession page0;
     chatHistory := chatHistory page0;
     isChatOpen := true; chatInput := "   "; isChatLoading := false |}.



(** * Proofs *)

(** ** Facts about the numbers *)

Section Numbers.

Lemma num_div_of_Z (a b : Z) :
  b ≠ 0 → num_div (of_Z a) (of_Z b) = Fin (inject_Z a / inject_Z b).
Proof.
  intros Hb. unfold num_div, of_Z.
  destruct (Qeq_bool (inject_Z b) 0) eqn:E; [|reflexivity].
  apply Qeq_bool_eq in E. unfold Qeq in E. simpl in E. lia.
Qed.

Lemma num_div_zero (a : Z) :
  ∃ x, num_div (of_Z a) (of_Z 0) = x ∧ to_integer x = 0.
Proof.
  unfold num_div, of_Z. simpl.
  destruct (Qeq_bool (inject_Z a) 0); [by eexists|].
  destruct (Qle_bool 0 (inject_Z a)); by eexists.
Qed.

Lemma Qfloor_div (a b : Z) :
  0 < b → Qfloor (inject_Z a / inject_Z b) = a / b.
Proof.
  intros Hb. destruct b as [|p|p]; try lia.
  unfold Qdiv, Qmult, Qinv, inject_Z. simpl.
  by rewrite Z.mul_1_r.
Qed.

Lemma Qceiling_div (a b : Z) :
  0 < b → Qceiling (inject_Z a / inject_Z b) = - ((- a) / b).
Proof.
  intros Hb. destruct b as [|p|p]; try lia.
  unfold Qceiling, Qfloor, Qopp, Qdiv, Qmult, Qinv, inject_Z. simpl.
  by rewrite Z.mul_1_r.
Qed.

Lemma Qle_bool_div (a b : Z) :
  0 ≤ a → 0 < b → Qle_bool 0 (inject_Z a / inject_Z b) = true.
Proof.
  intros Ha Hb. apply Qle_bool_iff. destruct b as [|p|p]; try lia.
  unfold Qle, Qdiv, Qmult, Qinv, inject_Z. simpl. lia.
Qed.

(** For a non-negative length and a positive channel count the integer the
    platform makes of [length / numChannels] is the floor of the
    quotient. *)
Lemma to_integer_div (a b : Z) :
  0 ≤ a → 0 < b → to_integer (num_div (of_Z a) (of_Z b)) = a / b.
Proof.
  intros Ha Hb. rewrite num_div_of_Z by lia. simpl. unfold Qtruncate.
  rewrite Qle_bool_div by done. by apply Qfloor_div.
Qed.

(** A non-positive quotient truncates to a non-positive integer. *)
Lemma to_integer_div_neg (a b : Z) :
  0 ≤ a → b < 0 → to_integer (num_div (of_Z a) (of_Z b)) ≤ 0.
Proof.
  intros Ha Hb. rewrite num_div_of_Z by lia. simpl. unfold Qtruncate.
  destruct b as [|p|p]; try lia.
  assert (Hq : (inject_Z a / inject_Z (Z.neg p) <= 0)%Q).
  { unfold Qle, Qdiv, Qmult, Qinv, inject_Z. simpl. lia. }
  destruct (Qle_bool 0 _) eqn:E.
  - apply (Qfloor_resp_le _ 0%Q) in Hq. by simpl in Hq.
  - apply (Qceiling_resp_le _ 0%Q) in Hq. by simpl in Hq.
Qed.

(** [for_range] lists exactly the values of the loop variable that pass
    the test [i < bound]. *)
Lemma for_range_spec (q : Q) (l : list Z) (i : Z) :
  for_range (Fin q) = Some l → i ∈ l ↔ 0 ≤ i ∧ (inject_Z i < q)%Q.
Proof.
  intros [= <-]. rewrite elem_of_seqZ.
  pose proof (Qle_ceiling q) as Hle. pose proof (Qceiling_lt q) as Hlt.
  split.
  - intros [H0 Hi]. split; [done|].
    eapply Qle_lt_trans; [|exact Hlt].
    rewrite <- Zle_Qle. lia.
  - intros [H0 Hi]. split; [done|].
    assert (inject_Z i < inject_Z (Qceiling q))%Q as H
      by (eapply Qlt_le_trans; eauto).
    rewrite <- Zlt_Qlt in H. lia.
Qed.

End Numbers.

#[global] Arguments num_div : simpl never.
#[global] Arguments to_integer : simpl never.
#[global] Arguments of_Z : simpl never.

(** ** Facts about typed arrays and loops *)

Section Arrays.

Lemma int16_le_range (lo hi : byte) : -32768 ≤ int16_le lo hi < 32768.
Proof.
  unfold int16_le, byte_val.
  pose proof (Byte.to_N_bounded lo). pose proof (Byte.to_N_bounded hi).
  destruct (Z.ltb_spec (Z.of_N (to_N lo) + 256 * Z.of_N (to_N hi)) 32768); lia.
Qed.

Lemma int16_elements_ind (P : list byte → Prop) :
  P [] → (∀ b, P [b]) → (∀ lo hi rest, P rest → P (lo :: hi :: rest)) →
  ∀ bs, P bs.
Proof.
  intros H0 H1 H2.
  assert (∀ bs, P bs ∧ ∀ b, P (b :: bs)) as H; [|intros bs; apply H].
  induction bs as [|b bs [IH1 IH2]]; split; auto.
Qed.

Lemma length_int16_elements (bs : list byte) :
  Z.of_nat (length (int16_elements bs)) = Z.of_nat (length bs) / 2.
Proof.
  induction bs as [| b | lo hi rest IH] using int16_elements_ind; [done..|].
  simpl length. rewrite !Nat2Z.inj_succ, IH.
  replace (Z.succ (Z.succ (Z.of_nat (length rest))))
    with (Z.of_nat (length rest) + 1 * 2) by lia.
  rewrite Z.div_add by lia. lia.
Qed.

(** Element [k] of the view is made of the bytes [2k] (low) and [2k+1]
    (high) of the buffer. *)
Lemma lookup_int16_elements (bs : list byte) (k : nat) (lo hi : byte) :
  bs !! (2 * k)%nat = Some lo → bs !! (2 * k + 1)%nat = Some hi →
  int16_elements bs !! k = Some (int16_le lo hi).
Proof.
  revert k. induction bs as [| b | l h rest IH] using int16_elements_ind;
    intros k Hlo Hhi.
  - done.
  - destruct k; simpl in *; [done|].
    replace (k + S (k + 0))%nat with (S (2 * k)) in Hlo by lia. done.
  - destruct k as [|k]; simpl in *; [by simplify_eq|].
    replace (k + S (k + 0))%nat with (S (2 * k)) in Hlo by lia.
    replace (k + S (k + 0) + 1)%nat with (S (2 * k + 1)) in Hhi by lia.
    simpl in *. by apply IH.
Qed.

Lemma get_lookup {A} (a : list A) (k : nat) : get a (Z.of_nat k) = a !! k.
Proof.
  unfold get. destruct (Z.ltb_spec (Z.of_nat k) 0); [lia|]. by rewrite Nat2Z.id.
Qed.

Lemma set_insert {A} (a : list A) (k : nat) (x : A) :
  set a (Z.of_nat k) x = <[k := x]> a.
Proof.
  unfold set. destruct (Z.ltb_spec (Z.of_nat k) 0); [lia|]. by rewrite Nat2Z.id.
Qed.

Lemma for_each_app {S} (body : S → Z → result S) (s : S) (l1 l2 : list Z) :
  for_each body s (l1 ++ l2) = s' ← for_each body s l1; for_each body s' l2.
Proof.
  revert s. induction l1 as [|i l1 IH]; intros s; simpl; [done|].
  destruct (body s i); simpl; auto.
Qed.

(** The inner loop run for [i = 0 .. m-1] over an array [a]: it returns,
    the array keeps its length, and every position below both [m] and the
    length holds the value written there; the writes beyond the end of the
    array are lost. *)
Lemma for_each_set (f : Z → number) (a : list number) (m : nat) :
  ∃ a', for_each (λ a i, Ok (set a i (f i))) a (seqZ 0 (Z.of_nat m)) = Ok a'
    ∧ length a' = length a
    ∧ ∀ k : nat, a' !! k =
        if decide (k < m)%nat then (λ _, f (Z.of_nat k)) <$> a !! k
        else a !! k.
Proof.
  induction m as [|m (a' & Hrun & Hlen & Hval)].
  - exists a. by rewrite seqZ_nil.
  - exists (<[m := f (Z.of_nat m)]> a').
    rewrite seqZ_S, Z.add_0_l, for_each_app, Hrun. simpl.
    rewrite set_insert, length_insert. split_and!; [done..|].
    intros k. destruct (decide (k = m)) as [->|Hne].
    + rewrite decide_True by lia.
      destruct (decide (m < length a')%nat) as [Hin|Hout].
      * rewrite list_lookup_insert_eq by done.
        rewrite Hlen in Hin. apply lookup_lt_is_Some in Hin as [x ->]. done.
      * rewrite list_insert_ge by lia. rewrite Hval, decide_False by lia.
        rewrite Hlen in Hout. rewrite lookup_ge_None_2 by lia. done.
    + rewrite list_lookup_insert_ne by done. rewrite Hval.
      repeat case_decide; done || lia.
Qed.

(** When the loop runs at least to the end of the array, the array is
    filled from position 0 on with the written values. *)
Lemma for_each_set_fill (f : Z → number) (a : list number) (m : Z) :
  Z.of_nat (length a) ≤ m →
  for_each (λ a i, Ok (set a i (f i))) a (seqZ 0 m)
  = Ok (f <$> seqZ 0 (Z.of_nat (length a))).
Proof.
  intros Hm. destruct (for_each_set f a (Z.to_nat m)) as (a' & Hrun & Hlen & Hval).
  rewrite Z2Nat.id in Hrun by lia. rewrite Hrun. f_equal.
  apply list_eq. intros k. rewrite Hval, list_lookup_fmap.
  destruct (decide (k < length a)%nat) as [Hin|Hout].
  - rewrite decide_True by lia. rewrite lookup_seqZ_lt by lia.
    apply lookup_lt_is_Some in Hin as [x ->]. done.
  - rewrite lookup_seqZ_ge by lia. rewrite (lookup_ge_None_2 a) by lia.
    by case_decide.
Qed.

Lemma for_lt_of_Z {S} (bound : Z) (body : S → Z → result S) (s : S) :
  for_lt (of_Z bound) body s = for_each body s (seqZ 0 bound).
Proof.
  unfold for_lt, of_Z. simpl. unfold Qceiling, Qfloor. simpl.
  rewrite Z.div_1_r. by rewrite Z.opp_involutive.
Qed.

End Arrays.

(** ** The decoder, characterised *)

Section Decoder.

Variables (d : Int16Array) (nc rate n : Z) (q : Q).
Hypothesis Hn : 0 ≤ n ≤ Qceiling q.

(** One round of the outer loop on a channel that is still silent. *)
Lemma decode_channel (chs : list Float32Array) (c : nat) (a : Float32Array) :
  chs !! c = Some a → Z.of_nat (length a) = n →
  channel_round d nc (Fin q) (buffer_with nc n rate chs) (Z.of_nat c)
  = Ok (buffer_with nc n rate (<[c := filled d nc n (Z.of_nat c)]> chs)).
Proof.
  intros Hc Hlen. unfold channel_round, getChannelData. simpl.
  rewrite get_lookup, Hc. simpl. unfold for_lt. simpl.
  rewrite (for_each_set_fill (λ i, sample d nc (Z.of_nat c) i)) by lia.
  simpl. unfold setChannelData, buffer_with, filled. simpl.
  by rewrite set_insert, Hlen.
Qed.

(** The outer loop after [m] channels: these are filled, the others are
    as [createBuffer] left them. *)
Lemma decode_channels (total m : nat) :
  (m ≤ total)%nat →
  for_each (channel_round d nc (Fin q))
    (buffer_with nc n rate (replicate total (silent n)))
    (seqZ 0 (Z.of_nat m))
  = Ok (buffer_with nc n rate
          ((filled d nc n <$> seqZ 0 (Z.of_nat m))
             ++ replicate (total - m) (silent n))).
Proof.
  induction m as [|m IH]; intros Hm.
  - rewrite seqZ_nil by lia. simpl. by rewrite Nat.sub_0_r.
  - rewrite seqZ_S, Z.add_0_l, for_each_app, IH by lia. simpl.
    assert (Hlenf : length (filled d nc n <$> seqZ 0 (Z.of_nat m)) = m)
      by (by rewrite length_fmap, length_seqZ, Nat2Z.id).
    rewrite (decode_channel _ m (silent n)).
    2:{ rewrite lookup_app_r by lia. rewrite Hlenf, Nat.sub_diag.
        apply lookup_replicate_2. lia. }
    2:{ unfold silent. rewrite length_replicate. lia. }
    f_equal. f_equal.
    rewrite fmap_app. simpl. rewrite <- app_assoc. simpl.
    replace m with (length (filled d nc n <$> seqZ 0 (Z.of_nat m)) + 0)%nat
      at 1 by lia.
    rewrite insert_app_r.
    replace (total - m)%nat with (S (total - S m)) by lia. done.
Qed.

End Decoder.

(** What the decoder does on every input: a RangeError for an odd number of
    bytes; else a NotSupportedError when the channel count, the truncated
    frame count or the sample rate is not positive, or the channel count or
    the sample rate is outside the nominal range of the context; else the
    buffer [decoded]. *)
Theorem decodeAudioData_cases (data : Uint8Array) (ctx : AudioContext)
    (rate nc : Z) :
  decodeAudioData data ctx rate nc =
    if negb (Z.of_nat (length data) mod 2 =? 0) then Throw RangeError
    else if (nc <=? 0) || (Z.of_nat (length data) / 2 / nc <=? 0)
            || (rate <=? 0) || negb (in_nominal_range ctx nc rate)
         then Throw NotSupportedError
         else Ok (decoded data rate nc).
Proof.
  unfold decodeAudioData, new_Int16Array.
  destruct (_ mod 2 =? 0) eqn:Heven; simpl; [|done].
  set (d := int16_elements data).
  assert (Hd : Z.of_nat (length d) = Z.of_nat (length data) / 2)
    by apply length_int16_elements.
  unfold createBuffer.
  destruct (Z.leb_spec nc 0) as [Hnc|Hnc]; simpl.
  { done. }
  rewrite to_integer_div by lia. rewrite Hd.
  destruct (Z.leb_spec (Z.of_nat (length data) / 2 / nc) 0) as [Hf|Hf];
    simpl; [done|].
  destruct (Z.leb_spec rate 0) as [Hr|Hr]; simpl; [done|].
  destruct (in_nominal_range ctx nc rate); simpl; [|done].
  rewrite num_div_of_Z by lia. rewrite for_lt_of_Z.
  rewrite <- Hd.
  set (n := Z.of_nat (length d) / nc).
  pose proof (decode_channels d nc rate n
                (inject_Z (Z.of_nat (length d)) / inject_Z nc)) as Hloop.
  cbv beta in Hloop.
  replace (seqZ 0 nc) with (seqZ 0 (Z.of_nat (Z.to_nat nc)))
    by (by rewrite Z2Nat.id by lia).
  etrans; [apply (Hloop) with (total := Z.to_nat nc); [|lia]|].
  - rewrite Qceiling_div by lia. subst n.
    split; [apply Z.div_pos; lia|].
    pose proof (Z.div_mod (Z.of_nat (length d)) nc ltac:(lia)).
    pose proof (Z.mod_pos_bound (Z.of_nat (length d)) nc ltac:(lia)).
    pose proof (Z.div_mod (- Z.of_nat (length d)) nc ltac:(lia)).
    pose proof (Z.mod_pos_bound (- Z.of_nat (length d)) nc ltac:(lia)).
    nia.
  - unfold decoded. fold d. fold n. f_equal.
    rewrite Nat.sub_diag, app_nil_r, Z2Nat.id by lia. done.
Qed.

(** *** Consequences used by the properties below *)

Section DecoderFacts.

Variables (data : Uint8Array) (ctx : AudioContext) (rate nc : Z).

Lemma decodeAudioData_odd :
  Z.of_nat (length data) mod 2 ≠ 0 →
  decodeAudioData data ctx rate nc = Throw RangeError.
Proof.
  intros Hodd. rewrite decodeAudioData_cases.
  by destruct (Z.eqb_spec (Z.of_nat (length data) mod 2) 0).
Qed.

Lemma decodeAudioData_ok :
  0 < nc → 0 < rate → in_nominal_range ctx nc rate = true →
  Z.of_nat (length data) mod 2 = 0 →
  0 < Z.of_nat (length data) / 2 / nc →
  decodeAudioData data ctx rate nc = Ok (decoded data rate nc).
Proof.
  intros Hnc Hrate Hrange Heven Hn. rewrite decodeAudioData_cases, Hrange.
  destruct (Z.eqb_spec (Z.of_nat (length data) mod 2) 0); [simpl|done].
  destruct (Z.leb_spec nc 0); [lia|].
  destruct (Z.leb_spec (Z.of_nat (length data) / 2 / nc) 0); [lia|].
  destruct (Z.leb_spec rate 0); [lia|]. done.
Qed.

(** A buffer is returned only in the last case of
    [decodeAudioData_cases]. *)
Lemma decodeAudioData_Ok_inv (buffer : AudioBuffer) :
  decodeAudioData data ctx rate nc = Ok buffer →
  Z.of_nat (length data) mod 2 = 0 ∧ 0 < nc ∧ 0 < rate
  ∧ 0 < Z.of_nat (length data) / 2 / nc
  ∧ buffer = decoded data rate nc.
Proof.
  rewrite decodeAudioData_cases.
  destruct (Z.eqb_spec (Z.of_nat (length data) mod 2) 0); [simpl|done].
  destruct (Z.leb_spec nc 0); [done|].
  destruct (Z.leb_spec (Z.of_nat (length data) / 2 / nc) 0); [done|].
  destruct (Z.leb_spec rate 0); [done|]. simpl.
  destruct (in_nominal_range ctx nc rate); simpl; [|done]. intros [= <-].
  split_and!; done.
Qed.

Lemma decodeAudioData_Ok_range (buffer : AudioBuffer) :
  decodeAudioData data ctx rate nc = Ok buffer →
  in_nominal_range ctx nc rate = true.
Proof.
  rewrite decodeAudioData_cases.
  destruct (negb _); [done|].
  destruct (in_nominal_range ctx nc rate); [done|].
  by rewrite orb_true_r.
Qed.

Lemma frames_decoded :
  0 < nc →
  frames (decoded data rate nc) = Z.of_nat (length data) / (2 * nc).
Proof.
  intros Hnc. simpl. rewrite length_int16_elements.
  by rewrite Z.div_div by lia.
Qed.

Lemma channels_decoded :
  0 < nc →
  Z.of_nat (length (channels (decoded data rate nc))) = nc
  ∧ Forall (λ ch : Float32Array,
              Z.of_nat (length ch) = Z.of_nat (length data) / (2 * nc))
           (channels (decoded data rate nc)).
Proof.
  intros Hnc. pose proof (frames_decoded Hnc) as Hf. simpl in *. split.
  - rewrite length_fmap, length_seqZ. lia.
  - apply Forall_fmap, Forall_forall. intros c _. simpl.
    rewrite length_fmap, length_seqZ, <- Hf.
    rewrite Z2Nat.id; [done|]. apply Z.div_pos; lia.
Qed.

(** Channel [c] of the decoded buffer, read at frame [i]. *)
Lemma sample_decoded (c i : Z) :
  0 ≤ c < nc → 0 ≤ i < Z.of_nat (length data) / (2 * nc) →
  ∃ channelData, getChannelData (decoded data rate nc) c = Ok channelData
    ∧ get channelData i = Some (sample (int16_elements data) nc c i).
Proof.
  intros Hc Hi. rewrite <- frames_decoded in Hi by lia.
  unfold getChannelData. simpl in *.
  rewrite <- (Z2Nat.id c), get_lookup, list_lookup_fmap by lia.
  rewrite lookup_seqZ_lt by lia. simpl. eexists; split; [done|].
  rewrite <- (Z2Nat.id i), get_lookup, list_lookup_fmap by lia.
  rewrite lookup_seqZ_lt by lia. simpl. by rewrite !Z2Nat.id by lia.
Qed.

(** With whole frames only, the element read for frame [i] of channel [c]
    is in range: it is made of the bytes [2k] and [2k+1], [k = i*nc+c]. *)
Lemma sample_bytes (c i : Z) :
  0 < nc → Z.of_nat (length data) mod (2 * nc) = 0 →
  0 ≤ c < nc → 0 ≤ i < Z.of_nat (length data) / (2 * nc) →
  ∃ lo hi,
    get data (2 * (i * nc + c)) = Some lo
    ∧ get data (2 * (i * nc + c) + 1) = Some hi
    ∧ sample (int16_elements data) nc c i
      = Fin (inject_Z (int16_le lo hi) / 32768).
Proof.
  intros Hnc Hmul Hc Hi.
  assert (Hlen : Z.of_nat (length data)
                 = 2 * nc * (Z.of_nat (length data) / (2 * nc))).
  { pose proof (Z.div_mod (Z.of_nat (length data)) (2 * nc)). lia. }
  set (k := i * nc + c).
  assert (Hk : 0 ≤ k ∧ 2 * k + 1 < Z.of_nat (length data)) by (subst k; nia).
  destruct (lookup_lt_is_Some_2 data (Z.to_nat (2 * k))) as [lo Hlo]; [lia|].
  destruct (lookup_lt_is_Some_2 data (Z.to_nat (2 * k + 1))) as [hi Hhi];
    [lia|].
  exists lo, hi.
  rewrite <- (Z2Nat.id (2 * k + 1)), get_lookup by lia.
  rewrite <- (Z2Nat.id (2 * k)) at 1 by lia. rewrite get_lookup. split_and!; [done..|].
  unfold sample. fold k. rewrite <- (Z2Nat.id k), get_lookup by lia.
  rewrite (lookup_int16_elements data (Z.to_nat k) lo hi).
  - simpl. by rewrite num_div_of_Z.
  - by replace (2 * Z.to_nat k)%nat with (Z.to_nat (2 * k)) by lia.
  - by replace (2 * Z.to_nat k + 1)%nat with (Z.to_nat (2 * k + 1)) by lia.
Qed.

End DecoderFacts.

(** ** Properties of the decoder *)

Lemma requantize_exact (v : Z) :
  requantize (Fin (inject_Z v / 32768)) = Some v.
Proof.
  unfold requantize. f_equal.
  rewrite (Qfloor_comp _ (inject_Z v + (1 # 2))) by field.
  unfold Qfloor, Qplus, inject_Z. simpl.
  rewrite Z.mul_1_r. replace (v * 2 + 1) with (1 + v * 2) by lia.
  rewrite Z.div_add by lia. done.
Qed.

Lemma whole_frames (len nc i : Z) :
  0 < nc → len mod (2 * nc) = 0 → 0 ≤ i < len / (2 * nc) →
  len mod 2 = 0 ∧ 0 < len / 2 / nc.
Proof.
  intros Hnc Hmul Hi.
  pose proof (Z.div_mod len (2 * nc) ltac:(lia)) as Hlen.
  rewrite Hmul, Z.add_0_r in Hlen. split.
  - rewrite Hlen, <- Z.mul_assoc, Z.mul_comm. apply Z.mod_mul. lia.
  - rewrite Z.div_div by lia. lia.
Qed.

Lemma first_frame (len nc : Z) :
  0 < nc → nc ≤ len / 2 → 0 < len / 2 / nc.
Proof. intros Hnc Hlen. apply Z.div_str_pos. lia. Qed.

Lemma in_nominal_range_true (ctx : AudioContext) (nChannels rate : Z) :
  in_nominal_range ctx nChannels rate = true
  ↔ nChannels ≤ maxNumberOfChannels ctx
    ∧ minSampleRate ctx ≤ rate ≤ maxSampleRate ctx.
Proof.
  unfold in_nominal_range. rewrite !andb_true_iff, !Z.leb_le. tauto.
Qed.

(** Every implementation takes up to 32 channels and the rates 8000 to
    96000. *)
Lemma in_nominal_range_standard (ctx : AudioContext) (nChannels rate : Z) :
  nChannels ≤ 32 → 8000 ≤ rate ≤ 96000 →
  in_nominal_range ctx nChannels rate = true.
Proof.
  intros Hn Hr. apply in_nominal_range_true.
  unfold maxNumberOfChannels, minSampleRate, maxSampleRate. lia.
Qed.

(** C1 (as the code has it). On whole frames ([length data] a multiple of
    [2 * numChannels]), for a positive channel count and a positive sample
    rate that are inside the nominal ranges of the context, the decoder
    returns a buffer in which frame [i] of channel [c] is the 16-bit
    little-endian signed integer at position [i * numChannels + c] of the
    input divided by 32768: with [lo] the byte at twice the position and
    [hi] the byte after it, the integer is [lo + 256 * hi], less 65536 when
    that is 32768 or more. *)
Theorem C1_interleaved_samples (data : Uint8Array) (ctx : AudioContext)
    (rate numChannels c i : Z) :
  0 < numChannels ≤ maxNumberOfChannels ctx →
  0 < rate → minSampleRate ctx ≤ rate ≤ maxSampleRate ctx →
  Z.of_nat (length data) mod (2 * numChannels) = 0 →
  0 ≤ c < numChannels →
  0 ≤ i < Z.of_nat (length data) / (2 * numChannels) →
  ∃ buffer channelData lo hi,
    decodeAudioData data ctx rate numChannels = Ok buffer
    ∧ getChannelData buffer c = Ok channelData
    ∧ get data (2 * (i * numChannels + c)) = Some lo
    ∧ get data (2 * (i * numChannels + c) + 1) = Some hi
    ∧ get channelData i
      = Some (Fin (inject_Z
                     (let u := Z.of_N (Byte.to_N lo)
                               + 256 * Z.of_N (Byte.to_N hi) in
                      if u <? 32768 then u else u - 65536)
                   / 32768)).
Proof.
  intros [Hnc Hmax] Hrate Hrange Hmul Hc Hi.
  destruct (whole_frames _ _ _ Hnc Hmul Hi) as [Heven Hn].
  destruct (sample_decoded data rate numChannels c i Hc Hi)
    as (channelData & Hch & Hget).
  destruct (sample_bytes data numChannels c i Hnc Hmul Hc Hi)
    as (lo & hi & Hlo & Hhi & Hs).
  exists (decoded data rate numChannels), channelData, lo, hi.
  rewrite decodeAudioData_ok by (done || by apply in_nominal_range_true).
  rewrite Hget, Hs. done.
Qed.

(** The scenario of the specification (0 and 32767 on one channel), and a
    negative sample on the second of two channels. *)
Lemma C1_witness :
  (∃ buffer channelData,
     decodeAudioData [x00; x00; xff; x7f] ctx0 24000 1 = Ok buffer
     ∧ getChannelData buffer 0 = Ok channelData
     ∧ get channelData 1 = Some (Fin (inject_Z 32767 / 32768)))
  ∧ (∃ buffer channelData,
       decodeAudioData [x64; x00; x9c; xff; xc8; x00; x38; xff] ctx0 24000 2
       = Ok buffer
       ∧ getChannelData buffer 1 = Ok channelData
       ∧ get channelData 0 = Some (Fin (inject_Z (-100) / 32768))).
Proof.
  split.
  - destruct (C1_interleaved_samples [x00; x00; xff; x7f] ctx0 24000 1 0 1)
      as (buffer & channelData & lo & hi & Hrun & Hch & Hlo & Hhi & Hs);
      [by vm_compute | lia | by vm_compute | reflexivity | lia
      | by vm_compute |].
    injection Hlo as <-. injection Hhi as <-.
    exists buffer, channelData. split_and!; [exact Hrun | exact Hch | exact Hs].
  - destruct (C1_interleaved_samples
                [x64; x00; x9c; xff; xc8; x00; x38; xff] ctx0 24000 2 1 0)
      as (buffer & channelData & lo & hi & Hrun & Hch & Hlo & Hhi & Hs);
      [by vm_compute | lia | by vm_compute | reflexivity | lia
      | by vm_compute |].
    injection Hlo as <-. injection Hhi as <-.
    exists buffer, channelData. split_and!; [exact Hrun | exact Hch | exact Hs].
Defined.

(** Whole frames and a positive channel count, but the channel count (33)
    or the sample rate (2999) outside what the context takes: no buffer. *)
Lemma C1_counterexample :
  decodeAudioData (replicate 66 x00) ctx0 24000 33 = Throw NotSupportedError
  ∧ decodeAudioData [x00; x00; xff; x7f] ctx0 2999 1 = Throw NotSupportedError.
Proof. split; reflexivity. Qed.

(** The scenarios of the specification, evaluated. *)
Example decode_scenario_mono :
  decodeAudioData [x00; x00; xff; x7f] ctx0 24000 1 =
  Ok {| numberOfChannels := 1; frames := 2; sampleRate := 24000;
        channels := [[Fin (inject_Z 0 / 32768);
                      Fin (inject_Z 32767 / 32768)]] |}.
Proof. reflexivity. Qed.

Example decode_scenario_stereo :
  decodeAudioData [x64; x00; x9c; xff; xc8; x00; x38; xff] ctx0 24000 2 =
  Ok {| numberOfChannels := 2; frames := 2; sampleRate := 24000;
        channels := [[Fin (inject_Z 100 / 32768); Fin (inject_Z 200 / 32768)];
                     [Fin (inject_Z (-100) / 32768);
                      Fin (inject_Z (-200) / 32768)]] |}.
Proof. reflexivity. Qed.

(** A decoding that returns: what the buffer holds. *)
Lemma decode_frames (data : Uint8Array) (ctx : AudioContext)
    (rate numChannels : Z) :
  0 < numChannels → 0 < rate → in_nominal_range ctx numChannels rate = true →
  Z.of_nat (length data) mod 2 = 0 →
  numChannels ≤ Z.of_nat (length data) / 2 →
  ∃ buffer, decodeAudioData data ctx rate numChannels = Ok buffer
    ∧ frames buffer
      = Z.of_nat (length (int16_elements data)) / numChannels
    ∧ frames buffer = Z.of_nat (length data) / (2 * numChannels)
    ∧ Forall (λ ch : Float32Array, Z.of_nat (length ch) = frames buffer)
             (channels buffer).
Proof.
  intros Hnc Hrate Hrange Heven Hlen.
  exists (decoded data rate numChannels).
  rewrite decodeAudioData_ok by auto using first_frame.
  rewrite frames_decoded by done.
  split_and!; [done| |done|by apply channels_decoded].
  by rewrite length_int16_elements, Z.div_div by lia.
Qed.

(** An even number of bytes that holds no complete frame is refused. *)
Lemma decodeAudioData_no_frame (data : Uint8Array) (ctx : AudioContext)
    (rate numChannels : Z) :
  Z.of_nat (length data) mod 2 = 0 → 0 < numChannels →
  Z.of_nat (length data) / 2 < numChannels →
  decodeAudioData data ctx rate numChannels = Throw NotSupportedError.
Proof.
  intros Heven Hnc Hlen. rewrite decodeAudioData_cases, Heven. simpl.
  rewrite Z.div_small by (split; [apply Z.div_pos; lia | done]).
  simpl. by rewrite orb_true_r.
Qed.




(** C3. With a channel count that is zero or negative the decoder returns no
    buffer, whatever the bytes: it throws, and the error is one by which the
    platform rejects an argument (RangeError for an odd number of bytes,
    else the NotSupportedError of [createBuffer]). *)
Theorem C3_nonpositive_channels (data : Uint8Array) (ctx : AudioContext)
    (rate numChannels : Z) :
  numChannels ≤ 0 →
  ∃ e, decodeAudioData data ctx rate numChannels = Throw e
    ∧ InvalidArgument e = true.
Proof.
  intros Hnc. rewrite decodeAudioData_cases.
  destruct (negb _); [by exists RangeError|].
  destruct (Z.leb_spec numChannels 0); [|lia]. by exists NotSupportedError.
Qed.

Lemma C3_witness :
  ∃ e, decodeAudioData [x00; x00; xff; x7f] ctx0 24000 0 = Throw e
    ∧ InvalidArgument e = true.
Proof.
  apply (C3_nonpositive_channels [x00; x00; xff; x7f] ctx0 24000 0); lia.
Defined.

(** C4 (as the code has it). On whole frames, for a positive channel count
    and a positive sample rate inside the nominal ranges of the context,
    every decoded sample, quantized back, is within one unit of the 16-bit
    integer it was decoded from: [lo + 256 * hi], less 65536 when that is
    32768 or more, for the bytes [lo] and [hi] of the sample. *)
Theorem C4_requantize (data : Uint8Array) (ctx : AudioContext)
    (rate numChannels c i : Z) :
  0 < numChannels ≤ maxNumberOfChannels ctx →
  0 < rate → minSampleRate ctx ≤ rate ≤ maxSampleRate ctx →
  Z.of_nat (length data) mod (2 * numChannels) = 0 →
  0 ≤ c < numChannels →
  0 ≤ i < Z.of_nat (length data) / (2 * numChannels) →
  ∃ buffer channelData lo hi x v,
    decodeAudioData data ctx rate numChannels = Ok buffer
    ∧ getChannelData buffer c = Ok channelData
    ∧ get data (2 * (i * numChannels + c)) = Some lo
    ∧ get data (2 * (i * numChannels + c) + 1) = Some hi
    ∧ get channelData i = Some x
    ∧ requantize x = Some v
    ∧ Z.abs (v - (let u := Z.of_N (Byte.to_N lo)
                           + 256 * Z.of_N (Byte.to_N hi) in
                  if u <? 32768 then u else u - 65536)) ≤ 1.
Proof.
  intros [Hnc Hmax] Hrate Hrange Hmul Hc Hi.
  destruct (whole_frames _ _ _ Hnc Hmul Hi) as [Heven Hn].
  destruct (sample_decoded data rate numChannels c i Hc Hi)
    as (channelData & Hch & Hget).
  destruct (sample_bytes data numChannels c i Hnc Hmul Hc Hi)
    as (lo & hi & Hlo & Hhi & Hs).
  exists (decoded data rate numChannels), channelData, lo, hi.
  exists (Fin (inject_Z (int16_le lo hi) / 32768)), (int16_le lo hi).
  rewrite decodeAudioData_ok by (done || by apply in_nominal_range_true).
  rewrite <- Hs.
  split_and!; [done..| |].
  - rewrite Hs. apply requantize_exact.
  - change (Z.abs (int16_le lo hi - int16_le lo hi) ≤ 1). lia.
Qed.

(** The second sample of the second of two channels, -200: quantized back it
    is within one unit of -200. *)
Lemma C4_witness :
  ∃ buffer channelData x v,
    decodeAudioData [x64; x00; x9c; xff; xc8; x00; x38; xff] ctx0 24000 2
    = Ok buffer
    ∧ getChannelData buffer 1 = Ok channelData
    ∧ get channelData 1 = Some x
    ∧ requantize x = Some v
    ∧ Z.abs (v - (-200)) ≤ 1.
Proof.
  destruct (C4_requantize [x64; x00; x9c; xff; xc8; x00; x38; xff]
              ctx0 24000 2 1 1)
    as (buffer & channelData & lo & hi & x & v
        & Hrun & Hch & Hlo & Hhi & Hx & Hv & Hnear);
    [by vm_compute | lia | by vm_compute | reflexivity | lia
    | by vm_compute |].
  injection Hlo as <-. injection Hhi as <-.
  exists buffer, channelData, x, v.
  split_and!; [exact Hrun | exact Hch | exact Hx | exact Hv | exact Hnear].
Defined.

(** Whole frames, but one frame of 33 channels on a context that takes 32,
    or a rate of 2999 Hz on a context that takes 3000 Hz and more: nothing
    is decoded, so there is nothing to quantize back. *)
Lemma C4_counterexample :
  decodeAudioData (replicate 66 x00) ctx0 24000 33 = Throw NotSupportedError
  ∧ decodeAudioData [x64; x00; x9c; xff; xc8; x00; x38; xff] ctx0 2999 2
    = Throw NotSupportedError.
Proof. split; reflexivity. Qed.

(** C5 (as the code has it). An input of odd length, such as five bytes, is
    rejected with a RangeError whatever the channel count: the 16-bit view
    cannot be made.  An input of even length is decoded, its incomplete last
    frame dropped silently, only when it holds a complete frame: with fewer
    16-bit samples than channels it is rejected with a NotSupportedError;
    with at least as many, and a positive channel count and sample rate
    inside the nominal ranges of the context, a buffer of the floor of
    [length / (2 * numChannels)] frames comes back. *)
Theorem C5_odd_length (data : Uint8Array) (ctx : AudioContext)
    (rate numChannels : Z) :
  (Z.of_nat (length data) mod 2 ≠ 0 →
   decodeAudioData data ctx rate numChannels = Throw RangeError)
  ∧ (Z.of_nat (length data) mod 2 = 0 → 0 < numChannels →
     Z.of_nat (length data) / 2 < numChannels →
     decodeAudioData data ctx rate numChannels = Throw NotSupportedError)
  ∧ (Z.of_nat (length data) mod 2 = 0 →
     0 < numChannels ≤ maxNumberOfChannels ctx →
     0 < rate → minSampleRate ctx ≤ rate ≤ maxSampleRate ctx →
     numChannels ≤ Z.of_nat (length data) / 2 →
     ∃ buffer, decodeAudioData data ctx rate numChannels = Ok buffer
       ∧ frames buffer = Z.of_nat (length data) / (2 * numChannels)).
Proof.
  split_and!.
  - apply decodeAudioData_odd.
  - apply decodeAudioData_no_frame.
  - intros Heven [Hnc Hmax] Hrate Hrange Hlen.
    destruct (decode_frames data ctx rate numChannels) as (b & ? & ? & ? & ?);
      eauto. by apply in_nominal_range_true.
Qed.

Lemma C5_witness :
  decodeAudioData [x01; x00; x02; x00; x03] ctx0 24000 1 = Throw RangeError
  ∧ decodeAudioData [x01; x00; x02; x00] ctx0 24000 3
    = Throw NotSupportedError
  ∧ ∃ buffer,
      decodeAudioData [x01; x00; x02; x00; x03; x00] ctx0 24000 2 = Ok buffer
      ∧ frames buffer
        = Z.of_nat (length [x01; x00; x02; x00; x03; x00]) / (2 * 2).
Proof.
  split_and!.
  - apply (proj1 (C5_odd_length [x01; x00; x02; x00; x03] ctx0 24000 1)).
    by vm_compute.
  - apply (proj1 (proj2 (C5_odd_length [x01; x00; x02; x00] ctx0 24000 3)));
      [reflexivity | lia | by vm_compute].
  - apply (proj2 (proj2
             (C5_odd_length [x01; x00; x02; x00; x03; x00] ctx0 24000 2)));
      [reflexivity | by vm_compute | lia | by vm_compute | by vm_compute].
Defined.

(** The five bytes of the claim are refused; so are two samples for three
    channels, and partial frames for 33 channels or at 2999 Hz on a context
    that takes 32 channels and 3000 Hz and more. *)
Lemma C5_counterexample :
  decodeAudioData [x01; x00; x02; x00; x03] ctx0 24000 1 = Throw RangeError
  ∧ decodeAudioData [x01; x00; x02; x00] ctx0 24000 3
    = Throw NotSupportedError
  ∧ decodeAudioData (replicate 68 x00) ctx0 24000 33
    = Throw NotSupportedError
  ∧ decodeAudioData [x01; x00; x02; x00; x03; x00] ctx0 2999 2
    = Throw NotSupportedError.
Proof. split_and!; reflexivity. Qed.

(** C6 (as the code has it). With a positive channel count the decoding of
    the empty input returns no buffer: [createBuffer] refuses a length of
    zero frames with a NotSupportedError. *)
Theorem C6_empty_input (ctx : AudioContext) (rate numChannels : Z) :
  0 < numChannels →
  decodeAudioData [] ctx rate numChannels = Throw NotSupportedError.
Proof.
  intros Hnc. rewrite decodeAudioData_cases. simpl.
  destruct (Z.leb_spec numChannels 0); [done|].
  rewrite Z.div_0_l by lia. done.
Qed.

Lemma C6_witness :
  0 < 2 ∧ decodeAudioData [] ctx0 24000 2 = Throw NotSupportedError.
Proof. split; [lia | apply (C6_empty_input ctx0 24000 2); lia]. Defined.

Lemma C6_counterexample :
  decodeAudioData [] ctx0 24000 1 = Throw NotSupportedError.
Proof. reflexivity. Qed.

(** C7. When the decoding returns a buffer, the buffer has [numChannels]
    channel sequences and each has exactly [frameCount] elements, the floor
    of the byte count over [2 * numChannels]. *)
Theorem C7_channel_lengths (data : Uint8Array) (ctx : AudioContext)
    (rate numChannels : Z) (buffer : AudioBuffer) :
  0 < numChannels →
  decodeAudioData data ctx rate numChannels = Ok buffer →
  frames buffer = Z.of_nat (length data) / (2 * numChannels)
  ∧ Z.of_nat (length (channels buffer)) = numChannels
  ∧ Forall (λ ch : Float32Array, Z.of_nat (length ch) = frames buffer)
           (channels buffer).
Proof.
  intros Hnc (_ & _ & _ & _ & ->)%decodeAudioData_Ok_inv.
  rewrite frames_decoded by done.
  split; [done|]. by apply channels_decoded.
Qed.

Lemma C7_witness :
  frames (decoded [x01; x00; x02; x00; x03; x00] 24000 2)
  = Z.of_nat (length [x01; x00; x02; x00; x03; x00]) / (2 * 2)
  ∧ Z.of_nat (length (channels (decoded [x01; x00; x02; x00; x03; x00]
                                   24000 2))) = 2
  ∧ Forall (λ ch : Float32Array,
              Z.of_nat (length ch)
              = frames (decoded [x01; x00; x02; x00; x03; x00] 24000 2))
           (channels (decoded [x01; x00; x02; x00; x03; x00] 24000 2)).
Proof.
  apply (C7_channel_lengths [x01; x00; x02; x00; x03; x00] ctx0 24000 2);
    [lia | reflexivity].
Defined.

(** ** Properties of playAudio *)

(** The [try] block of [playAudio] never speaks: it adds to the events one
    [Started] when it returns and nothing otherwise. *)
Lemma playAudio_try_events (env : Env) (text voiceName : string)
    (w w1 : World) (r : result unit) :
  playAudio_try env text voiceName w = (r, w1) →
  clock_reads w1 = clock_reads w
  ∧ match r with
    | Ok _ => ∃ buffer, events w1 = events w ++ [Started buffer]
    | _ => events w1 = events w
    end.
Proof.
  unfold playAudio_try, decode, mbind, M_bind, mret, M_ret, settle, throw,
    lift, get_audioContext, set_audioContext, emit.
  intros H.
  repeat (case_match; simplify_eq/=); eauto.
Qed.

(** C8. When the [try] block of [playAudio] throws (the remote call is
    rejected, the response holds no audio data, or a later step fails),
    [playAudio] returns after logging the error and speaking the very text
    it was given through the speech synthesis of the platform; when the
    block does not throw, nothing is spoken. *)
Theorem C8_fallback (env : Env) (text voiceName : string) (w : World) :
  (∀ e, generateContent env (SpeechRequest text voiceName) = inl e →
     playAudio_try env text voiceName w = (Throw e, w))
  ∧ (∀ response,
       generateContent env (SpeechRequest text voiceName) = inr response →
       falsy (first_inline_data response) = true →
       playAudio_try env text voiceName w
       = (Throw (JsError "No audio data returned"), w))
  ∧ (∀ e w1, playAudio_try env text voiceName w = (Throw e, w1) →
       ∃ w', playAudio env text voiceName w = (Ok (), w')
         ∧ events w'
           = events w ++ [ConsoleError "Audio generation failed:" e;
                          Spoken text])
  ∧ (∀ r w1, playAudio_try env text voiceName w = (r, w1) →
       (∀ e, r ≠ Throw e) →
       playAudio env text voiceName w = (r, w1)
       ∧ ∃ new, events w1 = events w ++ new ∧ ∀ t, Spoken t ∉ new).
Proof.
  split_and!.
  - intros e He. unfold playAudio_try, mbind, M_bind, settle. by rewrite He.
  - intros response Hr Hf.
    unfold playAudio_try, mbind, M_bind, settle, throw. by rewrite Hr, Hf.
  - intros e w1 Htry.
    destruct (playAudio_try_events _ _ _ _ _ _ Htry) as [_ Hev].
    unfold playAudio, try_catch. rewrite Htry.
    unfold playAudio_catch, mbind, M_bind, emit. simpl.
    eexists; split; [done|]. simpl. by rewrite Hev, <- app_assoc.
  - intros r w1 Htry Hr.
    destruct (playAudio_try_events _ _ _ _ _ _ Htry) as [_ Hev].
    unfold playAudio, try_catch. rewrite Htry.
    destruct r as [[]|e|]; [| by destruct (Hr e) |].
    + split; [done|]. destruct Hev as [buffer Hev].
      exists [Started buffer]. split; [done|].
      intros t Ht. apply list_elem_of_singleton in Ht. done.
    + split; [done|]. exists []. rewrite app_nil_r. split; [done|].
      intros t Ht. by apply not_elem_of_nil in Ht.
Qed.

(** ** Properties of toggleSave *)

Lemma list_find_term (cur : DictionaryEntry) (nb : list DictionaryEntry) :
  is_Some (list_find (λ n, term n = term cur) nb)
  ↔ ∃ n, n ∈ nb ∧ term n = term cur.
Proof.
  split.
  - intros [[i n] (Hi & Hn & _)%list_find_Some].
    exists n. split; [|done]. by eapply list_elem_of_lookup_2.
  - intros (n & Hin & Hn).
    destruct (list_find_elem_of (λ n, term n = term cur) nb n) as [x Hx];
      eauto.
Qed.

Lemma NoDup_terms_filter (P : DictionaryEntry → Prop)
    `{!∀ n, Decision (P n)} (nb : list DictionaryEntry) :
  NoDup (term <$> nb) → NoDup (term <$> filter P nb).
Proof.
  induction nb as [|n nb IH]; [done|].
  rewrite fmap_cons, NoDup_cons. intros [Hn Hnb].
  rewrite filter_cons. case_decide; [|by auto].
  rewrite fmap_cons, NoDup_cons. split; [|by auto].
  intros (m & Hm & Hin)%list_elem_of_fmap.
  apply list_elem_of_filter in Hin as [_ Hin].
  apply Hn, list_elem_of_fmap. eauto.
Qed.

(** C9. [toggleSave] removes every entry with the term of the current
    result when there is one, and puts the current result in front
    otherwise; a notebook with pairwise distinct terms stays so. *)
Theorem C9_toggleSave_distinct_terms (st : AppState) :
  (∀ cur, currentResult st = Some cur →
     (∃ n, n ∈ notebook st ∧ term n = term cur) →
     notebook (toggleSave st)
     = filter (λ n, term n ≠ term cur) (notebook st)
     ∧ ∀ n, n ∈ notebook (toggleSave st) → term n ≠ term cur)
  ∧ (∀ cur, currentResult st = Some cur →
       (∀ n, n ∈ notebook st → term n ≠ term cur) →
       notebook (toggleSave st) = cur :: notebook st)
  ∧ (NoDup (term <$> notebook st) →
     NoDup (term <$> notebook (toggleSave st))).
Proof.
  unfold toggleSave. split_and!.
  - intros cur -> Hex. apply list_find_term in Hex as [x ->]. simpl.
    split; [done|]. by intros n [? _]%list_elem_of_filter.
  - intros cur -> Hnone.
    destruct (list_find _ _) as [x|] eqn:Hfind; [|done].
    destruct (proj1 (list_find_term cur (notebook st))) as (n & Hin & Hn);
      [by rewrite Hfind|].
    by destruct (Hnone n Hin).
  - intros Hnd. destruct (currentResult st) as [cur|]; [|done].
    destruct (list_find _ _) as [x|] eqn:Hfind; simpl.
    + by apply NoDup_terms_filter.
    + apply NoDup_cons. split; [|done].
      intros (n & Hn & Hin)%list_elem_of_fmap.
      assert (is_Some (list_find (λ n, term n = term cur) (notebook st)))
        as [y Hy] by (apply list_find_term; eauto).
      congruence.
Qed.

(** ** Properties of lookupTerm *)

Lemma first_image_none (ps : list Part) :
  Forall (λ p, inlineData p = None) ps → first_image ps = None.
Proof. induction 1 as [|p ps Hp _ IH]; simpl; [done|]. by rewrite Hp. Qed.

(** [textResponse.text || "{}"]: the text when there is one and it is not
    empty, the empty object otherwise. *)
Lemma text_or_empty_object_spec (response : GenerateContentResponse) :
  text_or_empty_object response
  = match text response with
    | Some t => if bool_decide (t = EmptyString) then "{}" else t
    | None => "{}"
    end.
Proof.
  unfold text_or_empty_object, falsy.
  destruct (text response) as [t|]; [|done]. by case_bool_decide.
Qed.

(** C10 (as the code has it). When the analysis call succeeds and its text
    (the empty object when the response has no text, or an empty one) parses
    to a value other than [null], [lookupTerm] returns an entry for the term
    with the fields of the parsed text, whatever the image call does; the
    entry has no image when the image call was rejected or its response
    holds no inline data. *)
Theorem C10_image_failure (env : Env) (term0 nativeLang targetLang : string)
    (w : World) (textResponse : GenerateContentResponse)
    (textData : TextData) :
  generateContent env (AnalysisRequest term0 nativeLang targetLang)
  = inr textResponse →
  JSON_parse env
    (match text textResponse with
     | Some t => if bool_decide (t = EmptyString) then "{}" else t
     | None => "{}"
     end)
  = inr (Some textData) →
  ∃ entry w',
    lookupTerm env term0 nativeLang targetLang w = (Ok entry, w')
    ∧ term entry = term0
    ∧ phonetic entry = td_phonetic textData
    ∧ definition entry = td_definition textData
    ∧ examples entry = default [] (td_examples textData)
    ∧ usageGuide entry = td_usageGuide textData
    ∧ ((∃ e, generateContent env (ImageRequest term0) = inl e) →
       imageUrl entry = None)
    ∧ (∀ imageResponse,
         generateContent env (ImageRequest term0) = inr imageResponse →
         Forall (λ p, inlineData p = None) (parts_or_empty imageResponse) →
         imageUrl entry = None).
Proof.
  intros Htext Hparse. rewrite <- text_or_empty_object_spec in Hparse.
  unfold lookupTerm, try_catch, mbind, M_bind, mret, M_ret, settle, emit, now.
  rewrite Htext, Hparse.
  destruct (generateContent env (ImageRequest term0)) as [e|imageResponse];
    simpl; do 2 eexists; (split; [done|]); simpl; split_and!; try done.
  - by intros [? [=]].
  - intros ? [= <-] ?. by apply first_image_none.
Qed.

(** The analysis succeeds with the text [null], which parses: the image
    step runs (its request is rejected and the warning logged), the clock is
    read twice, and reading [textData.phonetic] throws a TypeError. *)
Lemma C10_counterexample :
  generateContent env_null (AnalysisRequest "hola" "English" "Spanish")
  = inr {| candidates := None; text := Some "null" |}
  ∧ JSON_parse env_null "null" = inr None
  ∧ lookupTerm env_null "hola" "English" "Spanish" world0
    = (Throw TypeError,
       {| audioContext := None;
          events := [ConsoleWarn "Image generation failed, using placeholder"
                       (ServiceError "RESOURCE_EXHAUSTED")];
          clock_reads := 2 |}).
Proof. split_and!; reflexivity. Qed.

(** ** The properties at concrete inputs *)

Lemma C8_witness :
  (∃ w', playAudio env_offline "hola" "Kore" world0 = (Ok (), w')
     ∧ events w'
       = events world0
         ++ [ConsoleError "Audio generation failed:"
               (ServiceError "Failed to fetch"); Spoken "hola"])
  ∧ (∃ w', playAudio (env_online no_response) "hola" "Kore" world0
           = (Ok (), w')
       ∧ events w'
         = events world0
           ++ [ConsoleError "Audio generation failed:"
                 (JsError "No audio data returned"); Spoken "hola"])
  ∧ (∃ w1, playAudio (env_online (audio_response "AAD/fw==")) "hola" "Kore"
             world0 = (Ok (), w1)
       ∧ ∃ new, events w1 = events world0 ++ new ∧ ∀ t, Spoken t ∉ new).
Proof.
  split_and!.
  - destruct (C8_fallback env_offline "hola" "Kore" world0)
      as (Hnet & _ & Hcatch & _).
    apply (Hcatch _ world0), Hnet. reflexivity.
  - destruct (C8_fallback (env_online no_response) "hola" "Kore" world0)
      as (_ & Hmissing & Hcatch & _).
    apply (Hcatch _ world0), (Hmissing no_response); reflexivity.
  - destruct (C8_fallback (env_online (audio_response "AAD/fw=="))
                "hola" "Kore" world0) as (_ & _ & _ & Hplain).
    eexists. apply (Hplain (Ok ())); [vm_compute; reflexivity | discriminate].
Defined.

Lemma C9_witness :
  notebook (toggleSave state0) = [entry_of "adios"]
  ∧ NoDup (term <$> notebook (toggleSave state0)).
Proof.
  destruct (C9_toggleSave_distinct_terms state0) as (Hrm & _ & Hnd).
  split.
  - destruct (Hrm (entry_of "hola")) as [-> _]; [reflexivity| |reflexivity].
    exists (entry_of "hola"). split; [|reflexivity].
    apply list_elem_of_further, list_elem_of_here.
  - apply Hnd. simpl. repeat (apply NoDup_cons; split); [|by intros ?%not_elem_of_nil|apply NoDup_nil_2].
    by intros [=]%list_elem_of_singleton.
Defined.

Lemma C10_witness :
  ∃ entry w',
    lookupTerm (env_online no_response) "hola" "English" "Spanish" world0
    = (Ok entry, w')
    ∧ term entry = "hola"
    ∧ phonetic entry = Some "o-la"
    ∧ definition entry = Some "hello"
    ∧ examples entry = []
    ∧ usageGuide entry = Some "A greeting for any time of the day."
    ∧ imageUrl entry = None.
Proof.
  destruct (C10_image_failure (env_online no_response)
              "hola" "English" "Spanish" world0
              {| candidates := None; text := Some hola_json |} hola_data)
    as (entry & w' & Hrun & Ht & Hp & Hd & Hex & Hu & Himg & _);
    [reflexivity | reflexivity |].
  exists entry, w'. split_and!; try done.
  apply Himg. by eexists.
Defined.

(** * Further properties of the code *)

(** ** decodeAudioData *)

Lemma int16_elements_range (bs : list byte) :
  Forall (λ v, -32768 ≤ v < 32768) (int16_elements bs).
Proof.
  induction bs as [| b | lo hi rest IH] using int16_elements_ind; simpl;
    [constructor..|].
  constructor; [apply int16_le_range | done].
Qed.

(** The reads that fill a buffer of at least one frame stay inside the
    16-bit view: with a positive channel count, the element for frame [i] of
    channel [c] exists whenever [i] is a frame of the buffer. *)
Lemma sample_in_view (d : Int16Array) (nc c i : Z) :
  0 < nc → 0 ≤ c < nc → 0 ≤ i < Z.of_nat (length d) / nc →
  ∃ v, d !! Z.to_nat (i * nc + c) = Some v
    ∧ sample d nc c i = Fin (inject_Z v / 32768).
Proof.
  intros Hnc Hc Hi.
  pose proof (Z.mul_div_le (Z.of_nat (length d)) nc Hnc) as Hle.
  assert (Hk : 0 ≤ i * nc + c < Z.of_nat (length d)) by nia.
  destruct (lookup_lt_is_Some_2 d (Z.to_nat (i * nc + c))) as [v Hv]; [lia|].
  exists v. split; [done|]. unfold sample.
  rewrite <- (Z2Nat.id (i * nc + c)), get_lookup, Hv by lia. simpl.
  by rewrite num_div_of_Z.
Qed.

(** What is in a decoded buffer: every sample is [sample] at a channel and a
    frame of the buffer. *)
Lemma decoded_elem (data : Uint8Array) (rate nc : Z) (ch : Float32Array)
    (x : number) :
  ch ∈ channels (decoded data rate nc) → x ∈ ch →
  ∃ c i, 0 ≤ c < nc
    ∧ 0 ≤ i < Z.of_nat (length (int16_elements data)) / nc
    ∧ x = sample (int16_elements data) nc c i.
Proof.
  simpl. intros (c & -> & Hc%elem_of_seqZ)%list_elem_of_fmap.
  intros (i & -> & Hi%elem_of_seqZ)%list_elem_of_fmap.
  exists c, i. split_and!; lia || done.
Qed.

(** X1. The outcome of the decoder is decided by the byte count, the channel
    count, the sample rate and the nominal ranges of the context alone: a
    RangeError exactly for an odd byte count; a NotSupportedError exactly
    for an even byte count with a channel count that is not positive,
    exceeds the number of 16-bit samples or exceeds what the context takes,
    or a sample rate that is not positive or outside the rates the context
    takes; a buffer otherwise.  It never fails in another way and never
    loops for ever. *)
Theorem X1_decoder_outcomes (data : Uint8Array) (ctx : AudioContext)
    (rate numChannels : Z) :
  let len := Z.of_nat (length data) in
  (decodeAudioData data ctx rate numChannels = Throw RangeError
   ↔ len mod 2 ≠ 0)
  ∧ (decodeAudioData data ctx rate numChannels = Throw NotSupportedError
     ↔ len mod 2 = 0
       ∧ (numChannels ≤ 0 ∨ len / 2 < numChannels
          ∨ maxNumberOfChannels ctx < numChannels
          ∨ rate ≤ 0 ∨ rate < minSampleRate ctx
          ∨ maxSampleRate ctx < rate))
  ∧ ((∃ buffer, decodeAudioData data ctx rate numChannels = Ok buffer)
     ↔ len mod 2 = 0 ∧ 0 < numChannels ≤ len / 2
       ∧ numChannels ≤ maxNumberOfChannels ctx
       ∧ 0 < rate ∧ minSampleRate ctx ≤ rate ≤ maxSampleRate ctx)
  ∧ (∀ e, decodeAudioData data ctx rate numChannels = Throw e →
       e = RangeError ∨ e = NotSupportedError)
  ∧ decodeAudioData data ctx rate numChannels ≠ Diverges.
Proof.
  intros len. rewrite decodeAudioData_cases. fold len.
  assert (Hfirst : 0 < numChannels → (len / 2 / numChannels ≤ 0
                                       ↔ len / 2 < numChannels)).
  { intros Hnc. split.
    - intros Hq. destruct (Z.lt_ge_cases (len / 2) numChannels); [done|].
      pose proof (first_frame len numChannels Hnc). lia.
    - intros Hlt. rewrite Z.div_small; [done|].
      split; [apply Z.div_pos; lia | done]. }
  assert (Hsome : ∀ b : AudioBuffer, ∃ buffer, Ok b = Ok buffer) by eauto.
  pose proof (in_nominal_range_true ctx numChannels rate) as Hrange.
  destruct (Z.eqb_spec (len mod 2) 0) as [Heven|Hodd]; simpl;
    [destruct (Z.leb_spec numChannels 0) as [Hnc|Hnc]; simpl;
     [|destruct (Z.leb_spec (len / 2 / numChannels) 0) as [Hn|Hn]; simpl;
       [|destruct (Z.leb_spec rate 0) as [Hr|Hr]; simpl;
         [|destruct (in_nominal_range ctx numChannels rate); simpl]]]|];
    (split_and!; [split| split | split | |]);
    try (intros [buffer [=]]); try (intros e [= <-]);
    try done; try tauto; try (intuition lia); auto.
Qed.

(** X2. Every sample of a buffer the decoder returns is a finite number in
    the range from -1 (included) to 1 (excluded); none is NaN. *)
Theorem X2_sample_range (data : Uint8Array) (ctx : AudioContext)
    (rate numChannels : Z) (buffer : AudioBuffer) (ch : Float32Array)
    (x : number) :
  decodeAudioData data ctx rate numChannels = Ok buffer →
  ch ∈ channels buffer → x ∈ ch →
  ∃ q, x = Fin q ∧ (-1 <= q)%Q ∧ (q < 1)%Q.
Proof.
  intros (_ & Hnc & _ & _ & ->)%decodeAudioData_Ok_inv Hch Hx.
  destruct (decoded_elem _ _ _ _ _ Hch Hx) as (c & i & Hc & Hi & ->).
  destruct (sample_in_view _ _ _ _ Hnc Hc Hi) as (v & Hv & ->).
  eexists; split; [done|].
  assert (Hr : -32768 ≤ v < 32768).
  { eapply (Forall_lookup_1 _ _ _ _ (int16_elements_range data)), Hv. }
  unfold Qle, Qlt, Qdiv, Qmult, Qinv, inject_Z. simpl. lia.
Qed.

Lemma X2_witness :
  ∃ q, Fin (inject_Z (-100) / 32768) = Fin q ∧ (-1 <= q)%Q ∧ (q < 1)%Q.
Proof.
  apply (X2_sample_range [x64; x00; x9c; xff; xc8; x00; x38; xff] ctx0 24000 2
           (decoded [x64; x00; x9c; xff; xc8; x00; x38; xff] 24000 2)
           [Fin (inject_Z (-100) / 32768); Fin (inject_Z (-200) / 32768)]);
    [reflexivity | | apply list_elem_of_here].
  apply list_elem_of_further, list_elem_of_here.
Defined.

Lemma int16_elements_take (bs : list byte) (m : nat) :
  int16_elements (take (2 * m) bs) = take m (int16_elements bs).
Proof.
  revert m. induction bs as [| b | lo hi rest IH] using int16_elements_ind;
    intros m.
  - rewrite take_nil. simpl. by rewrite take_nil.
  - destruct m as [|m]; [done|]. simpl.
    replace (m + S (m + 0))%nat with (S (2 * m)) by lia. done.
  - destruct m as [|m]; [done|]. simpl.
    replace (m + S (m + 0))%nat with (S (2 * m)) by lia. simpl.
    f_equal. apply IH.
Qed.

Lemma int16_elements_app (a b : list byte) :
  Z.of_nat (length a) mod 2 = 0 →
  int16_elements (a ++ b) = int16_elements a ++ int16_elements b.
Proof.
  induction a as [| x | lo hi rest IH] using int16_elements_ind;
    [done|by intros [=]|].
  intros Heven. simpl. rewrite IH; [done|].
  simpl length in Heven. rewrite !Nat2Z.inj_succ in Heven.
  replace (Z.succ (Z.succ (Z.of_nat (length rest))))
    with (Z.of_nat (length rest) + 1 * 2) in Heven by lia.
  by rewrite Z.mod_add in Heven by lia.
Qed.

Lemma int16_le_inj (lo hi lo' hi' : byte) :
  int16_le lo hi = int16_le lo' hi' → lo = lo' ∧ hi = hi'.
Proof.
  unfold int16_le, byte_val. intros Heq.
  pose proof (Byte.to_N_bounded lo). pose proof (Byte.to_N_bounded hi).
  pose proof (Byte.to_N_bounded lo'). pose proof (Byte.to_N_bounded hi').
  assert (to_N lo = to_N lo' ∧ to_N hi = to_N hi') as [Hlo Hhi].
  { destruct (Z.ltb_spec (Z.of_N (to_N lo) + 256 * Z.of_N (to_N hi)) 32768),
      (Z.ltb_spec (Z.of_N (to_N lo') + 256 * Z.of_N (to_N hi')) 32768); lia. }
  split; apply (inj Some); rewrite <- !Byte.of_to_N; congruence.
Qed.

(** The 16-bit view loses nothing of a buffer of even length. *)
Lemma int16_elements_inj (a b : list byte) :
  Z.of_nat (length a) mod 2 = 0 → Z.of_nat (length b) mod 2 = 0 →
  int16_elements a = int16_elements b → a = b.
Proof.
  revert b. induction a as [| x | lo hi rest IH] using int16_elements_ind;
    intros b Ha Hb Heq.
  - destruct b as [|y [|z b]]; [done| by destruct Hb | done].
  - done.
  - destruct b as [|lo' [|hi' b]]; [done| by destruct Hb |].
    simpl in Heq. injection Heq as Hv Hrest.
    apply int16_le_inj in Hv as [-> ->]. f_equal. f_equal.
    simpl length in Ha, Hb. rewrite !Nat2Z.inj_succ in Ha, Hb.
    replace (Z.succ (Z.succ (Z.of_nat (length rest))))
      with (Z.of_nat (length rest) + 1 * 2) in Ha by lia.
    replace (Z.succ (Z.succ (Z.of_nat (length b))))
      with (Z.of_nat (length b) + 1 * 2) in Hb by lia.
    rewrite Z.mod_add in Ha, Hb by lia. by apply IH.
Qed.

(** Two inputs give the same decoded buffer when their views have the same
    number of whole frames and agree on them. *)
Lemma decoded_ext (data1 data2 : Uint8Array) (rate nc : Z) :
  0 < nc →
  Z.of_nat (length (int16_elements data1)) / nc
  = Z.of_nat (length (int16_elements data2)) / nc →
  (∀ k : nat,
     Z.of_nat k < Z.of_nat (length (int16_elements data1)) / nc * nc →
     int16_elements data1 !! k = int16_elements data2 !! k) →
  decoded data1 rate nc = decoded data2 rate nc.
Proof.
  intros Hnc Hn Hagree. unfold decoded. rewrite <- Hn. f_equal.
  apply list_fmap_ext. intros jc c [-> Hc]%lookup_seqZ.
  apply list_fmap_ext. intros ji i [-> Hi]%lookup_seqZ.
  unfold sample. f_equal. f_equal.
  set (k := (0 + Z.of_nat _) * nc + (0 + Z.of_nat _)).
  assert (0 ≤ k < Z.of_nat (length (int16_elements data1)) / nc * nc)
    by (subst k; nia).
  rewrite <- (Z2Nat.id k), !get_lookup by lia. apply Hagree. lia.
Qed.

(** X3. The bytes after the last complete frame do not reach the output:
    an input of even length is decoded exactly as its prefix of whole frames
    is (and rejected exactly when that prefix is empty). *)
Theorem X3_leftover_ignored (data : Uint8Array) (ctx : AudioContext)
    (rate numChannels : Z) :
  0 < numChannels → Z.of_nat (length data) mod 2 = 0 →
  decodeAudioData data ctx rate numChannels
  = decodeAudioData
      (take (Z.to_nat (2 * numChannels
                       * (Z.of_nat (length data) / (2 * numChannels)))) data)
      ctx rate numChannels.
Proof.
  intros Hnc Heven.
  set (len := Z.of_nat (length data)) in *.
  set (n := len / (2 * numChannels)).
  assert (Hn0 : 0 ≤ n) by (apply Z.div_pos; lia).
  assert (Hp : 2 * numChannels * n ≤ len) by (apply Z.mul_div_le; lia).
  assert (Hlen : Z.of_nat (length (take (Z.to_nat (2 * numChannels * n)) data))
                 = 2 * (numChannels * n)).
  { rewrite length_take_le by lia. lia. }
  assert (Hq : len / 2 / numChannels = n) by (by rewrite Z.div_div by lia).
  rewrite !decodeAudioData_cases. fold len. rewrite Hlen, Hq.
  rewrite (Z.mul_comm 2 (numChannels * n)), Z.mod_mul, Z.div_mul by lia.
  rewrite (Z.mul_comm numChannels n), Z.div_mul by lia.
  destruct (Z.eqb_spec (len mod 2) 0); [simpl|done].
  destruct (_ || _ || _); [done|]. f_equal.
  assert (Hd : Z.of_nat (length (int16_elements data)) / numChannels = n).
  { by rewrite length_int16_elements. }
  replace (Z.to_nat (2 * numChannels * n))
    with (2 * Z.to_nat (n * numChannels))%nat by lia.
  apply decoded_ext; [done| |].
  - rewrite Hd, int16_elements_take, length_take_le.
    + rewrite Z2Nat.id, Z.div_mul by lia. done.
    + pose proof (length_int16_elements data). fold len in H.
      pose proof (Z.mul_div_le len 2 ltac:(lia)).
      assert (n * numChannels ≤ len / 2); [|lia].
      rewrite <- Hq. rewrite Z.mul_comm. apply Z.mul_div_le. lia.
  - intros k Hk. rewrite Hd in Hk.
    rewrite int16_elements_take, lookup_take_lt by lia. done.
Qed.

Lemma X3_witness :
  decodeAudioData [x01; x00; x02; x00; x03; x00] ctx0 24000 2
  = decodeAudioData
      (take (Z.to_nat (2 * 2 * (Z.of_nat (length [x01; x00; x02; x00; x03; x00])
                                / (2 * 2))))
            [x01; x00; x02; x00; x03; x00]) ctx0 24000 2.
Proof.
  apply (X3_leftover_ignored [x01; x00; x02; x00; x03; x00] ctx0 24000 2);
    [lia | reflexivity].
Defined.

Lemma whole_frames_count (len nc : Z) :
  0 < nc → len mod (2 * nc) = 0 → 0 < len →
  len = 2 * nc * (len / (2 * nc)) ∧ 0 < len / (2 * nc)
  ∧ len mod 2 = 0 ∧ len / 2 = nc * (len / (2 * nc)).
Proof.
  intros Hnc Hmul Hpos.
  pose proof (Z.div_mod len (2 * nc) ltac:(lia)) as Hlen.
  rewrite Hmul, Z.add_0_r in Hlen.
  assert (0 < len / (2 * nc)) by nia.
  split_and!; [done..| |].
  - rewrite Hlen, <- Z.mul_assoc, Z.mul_comm. apply Z.mod_mul. lia.
  - rewrite Hlen at 1. rewrite <- Z.mul_assoc, Z.mul_comm, Z.div_mul by lia.
    done.
Qed.

Lemma decodeAudioData_whole (data : Uint8Array) (ctx : AudioContext)
    (rate nc : Z) :
  0 < nc → 0 < rate → in_nominal_range ctx nc rate = true →
  Z.of_nat (length data) mod (2 * nc) = 0 → data ≠ [] →
  decodeAudioData data ctx rate nc = Ok (decoded data rate nc).
Proof.
  intros Hnc Hrate Hrange Hmul Hne.
  assert (0 < Z.of_nat (length data)) by (destruct data; simpl; [done|lia]).
  destruct (whole_frames_count _ _ Hnc Hmul) as (_ & Hn & Heven & Hhalf);
    [done|].
  apply decodeAudioData_ok; [done..|]. rewrite Z.div_div by lia. done.
Qed.

(** X4. Decoding is compatible with concatenation on whole frames, for a
    channel count and a sample rate inside the nominal ranges of the
    context: the channels of the buffer decoded from [a ++ b] are those
    decoded from [a] followed, channel by channel, by those decoded from
    [b]. *)
Theorem X4_concatenation (a b : Uint8Array) (ctx : AudioContext)
    (rate numChannels : Z) :
  0 < numChannels ≤ maxNumberOfChannels ctx →
  0 < rate → minSampleRate ctx ≤ rate ≤ maxSampleRate ctx →
  Z.of_nat (length a) mod (2 * numChannels) = 0 →
  Z.of_nat (length b) mod (2 * numChannels) = 0 →
  a ≠ [] → b ≠ [] →
  ∃ buffer_a buffer_b buffer_ab,
    decodeAudioData a ctx rate numChannels = Ok buffer_a
    ∧ decodeAudioData b ctx rate numChannels = Ok buffer_b
    ∧ decodeAudioData (a ++ b) ctx rate numChannels = Ok buffer_ab
    ∧ frames buffer_ab = frames buffer_a + frames buffer_b
    ∧ channels buffer_ab
      = zip_with app (channels buffer_a) (channels buffer_b).
Proof.
  intros [Hnc Hmax] Hrate Hrange%(conj Hmax)%in_nominal_range_true
    Ha Hb Hane Hbne.
  assert (Hla : 0 < Z.of_nat (length a)) by (destruct a; simpl; [done|lia]).
  assert (Hlb : 0 < Z.of_nat (length b)) by (destruct b; simpl; [done|lia]).
  destruct (whole_frames_count _ _ Hnc Ha Hla) as (Hlena & Hna & Hea & Hha).
  destruct (whole_frames_count _ _ Hnc Hb Hlb) as (Hlenb & Hnb & Heb & Hhb).
  set (na := Z.of_nat (length a) / (2 * numChannels)) in *.
  set (nb := Z.of_nat (length b) / (2 * numChannels)) in *.
  assert (Hab : Z.of_nat (length (a ++ b)) mod (2 * numChannels) = 0).
  { rewrite length_app, Nat2Z.inj_add, Hlena, Hlenb.
    replace (2 * numChannels * na + 2 * numChannels * nb)
      with ((na + nb) * (2 * numChannels)) by lia.
    apply Z.mod_mul. lia. }
  exists (decoded a rate numChannels), (decoded b rate numChannels),
         (decoded (a ++ b) rate numChannels).
  rewrite !decodeAudioData_whole by (done || by destruct a).
  assert (Hda : Z.of_nat (length (int16_elements a)) = numChannels * na)
    by (by rewrite length_int16_elements).
  assert (Hdb : Z.of_nat (length (int16_elements b)) = numChannels * nb)
    by (by rewrite length_int16_elements).
  split_and!; [done..| |]; simpl;
    rewrite int16_elements_app, length_app, Nat2Z.inj_add, Hda, Hdb by done;
    replace (numChannels * na + numChannels * nb)
      with ((na + nb) * numChannels) by lia;
    rewrite Z.div_mul, !(Z.mul_comm numChannels), !Z.div_mul by lia;
    [done|].
  apply list_eq. intros jc.
  rewrite lookup_zip_with, !list_lookup_fmap.
  destruct (seqZ 0 numChannels !! jc) as [c|] eqn:Hc; [simpl|done].
  apply lookup_seqZ in Hc as [-> Hc]. f_equal.
  rewrite seqZ_app, fmap_app by lia. f_equal.
  - apply list_fmap_ext. intros ji i [-> Hi]%lookup_seqZ.
    unfold sample. f_equal. f_equal.
    set (k := (0 + Z.of_nat ji) * numChannels + (0 + Z.of_nat jc)).
    assert (0 ≤ k < numChannels * na) by (subst k; nia).
    rewrite <- (Z2Nat.id k), !get_lookup by lia.
    apply lookup_app_l. lia.
  - replace (seqZ (0 + na) nb) with (Z.add na <$> seqZ 0 nb)
      by (rewrite fmap_add_seqZ; f_equal; lia).
    rewrite <- list_fmap_compose.
    apply list_fmap_ext. intros ji i [-> Hi]%lookup_seqZ.
    unfold compose, sample. f_equal. f_equal.
    set (k := (0 + Z.of_nat ji) * numChannels + (0 + Z.of_nat jc)).
    assert (0 ≤ k < numChannels * nb) by (subst k; nia).
    replace ((na + (0 + Z.of_nat ji)) * numChannels + (0 + Z.of_nat jc))
      with (Z.of_nat (length (int16_elements a) + Z.to_nat k)) by lia.
    rewrite <- (Z2Nat.id k), !get_lookup by lia.
    rewrite lookup_app_r by lia. f_equal. lia.
Qed.

Lemma X4_witness :
  ∃ buffer_a buffer_b buffer_ab,
    decodeAudioData [x64; x00; x9c; xff] ctx0 24000 2 = Ok buffer_a
    ∧ decodeAudioData [xc8; x00; x38; xff] ctx0 24000 2 = Ok buffer_b
    ∧ decodeAudioData ([x64; x00; x9c; xff] ++ [xc8; x00; x38; xff])
        ctx0 24000 2 = Ok buffer_ab
    ∧ frames buffer_ab = frames buffer_a + frames buffer_b
    ∧ channels buffer_ab
      = zip_with app (channels buffer_a) (channels buffer_b).
Proof.
  apply (X4_concatenation [x64; x00; x9c; xff] [xc8; x00; x38; xff]
           ctx0 24000 2);
    [by vm_compute | lia | by vm_compute | reflexivity | reflexivity
    | done | done].
Defined.

(** X5. On whole frames the decoder loses nothing: two inputs made of whole
    frames that decode to the same buffer are the same bytes. *)
Theorem X5_decoder_injective (data1 data2 : Uint8Array) (ctx : AudioContext)
    (rate numChannels : Z) (buffer : AudioBuffer) :
  Z.of_nat (length data1) mod (2 * numChannels) = 0 →
  Z.of_nat (length data2) mod (2 * numChannels) = 0 →
  decodeAudioData data1 ctx rate numChannels = Ok buffer →
  decodeAudioData data2 ctx rate numChannels = Ok buffer →
  data1 = data2.
Proof.
  intros Hm1 Hm2 (He1 & Hnc & _ & Hn1 & ->)%decodeAudioData_Ok_inv
    (He2 & _ & _ & Hn2 & Heq)%decodeAudioData_Ok_inv.
  rewrite Z.div_div in Hn1, Hn2 by lia.
  assert (Hf : Z.of_nat (length data1) / (2 * numChannels)
               = Z.of_nat (length data2) / (2 * numChannels)).
  { rewrite <- !(frames_decoded _ rate) by done. by rewrite Heq. }
  pose proof (Z.div_mod (Z.of_nat (length data1)) (2 * numChannels)
                ltac:(lia)) as Hl1.
  pose proof (Z.div_mod (Z.of_nat (length data2)) (2 * numChannels)
                ltac:(lia)) as Hl2.
  rewrite Hm1, Z.add_0_r in Hl1. rewrite Hm2, Z.add_0_r in Hl2.
  set (n := Z.of_nat (length data1) / (2 * numChannels)) in *.
  apply int16_elements_inj; [done..|].
  pose proof (length_int16_elements data1) as Hd1.
  pose proof (length_int16_elements data2) as Hd2.
  assert (Hlen : Z.of_nat (length (int16_elements data1)) = numChannels * n).
  { rewrite Hd1, Hl1, <- Z.mul_assoc, (Z.mul_comm 2), Z.div_mul by lia. done. }
  assert (Hlen2 : Z.of_nat (length (int16_elements data2)) = numChannels * n).
  { rewrite Hd2, Hl2, <- Hf, <- Z.mul_assoc, (Z.mul_comm 2), Z.div_mul by lia.
    done. }
  apply list_eq. intros k.
  destruct (decide (Z.of_nat k < numChannels * n)) as [Hk|Hk].
  2:{ rewrite !lookup_ge_None_2 by lia. done. }
  set (i := Z.of_nat k / numChannels). set (c := Z.of_nat k mod numChannels).
  pose proof (Z.div_mod (Z.of_nat k) numChannels ltac:(lia)) as Hkd.
  pose proof (Z.mod_pos_bound (Z.of_nat k) numChannels Hnc) as Hcb.
  fold i c in Hkd, Hcb.
  assert (Hi : 0 ≤ i < n).
  { split; [apply Z.div_pos; lia|]. apply Z.div_lt_upper_bound; lia. }
  destruct (sample_decoded data1 rate numChannels c i) as (ch1 & Hch1 & Hs1);
    [done..|].
  destruct (sample_decoded data2 rate numChannels c i) as (ch2 & Hch2 & Hs2);
    [done| by rewrite <- Hf|].
  rewrite Heq, Hch2 in Hch1. injection Hch1 as <-.
  rewrite Hs2 in Hs1. injection Hs1 as Hs.
  destruct (sample_in_view (int16_elements data1) numChannels c i)
    as (v1 & Hv1 & Hsv1); [done..| |].
  { rewrite Hlen, Z.mul_comm, Z.div_mul by lia. done. }
  destruct (sample_in_view (int16_elements data2) numChannels c i)
    as (v2 & Hv2 & Hsv2); [done..| |].
  { rewrite Hlen2, Z.mul_comm, Z.div_mul by lia. done. }
  rewrite Hsv1, Hsv2 in Hs. injection Hs as Hs. rewrite Z.mul_1_r in Hs.
  replace (Z.to_nat (i * numChannels + c)) with k in Hv1, Hv2 by lia.
  etrans; [exact Hv1|]. symmetry. etrans; [exact Hv2|]. f_equal. lia.
Qed.

Lemma X5_witness : [x64; x00; x9c; xff] = [x64; x00; x9c; xff].
Proof.
  apply (X5_decoder_injective [x64; x00; x9c; xff] [x64; x00; x9c; xff]
           ctx0 24000 2 (decoded [x64; x00; x9c; xff] 24000 2));
    reflexivity.
Defined.

(** ** decode *)

(** A loop that writes [f i] at every position [i] of an array of [n]
    elements replaces the array by the values of [f]. *)
Lemma for_each_write {A} (f : Z → A) (a : list A) (m : nat) :
  ∃ a', for_each (λ a i, Ok (set a i (f i))) a (seqZ 0 (Z.of_nat m)) = Ok a'
    ∧ length a' = length a
    ∧ ∀ k : nat, a' !! k =
        if decide (k < m)%nat then (λ _, f (Z.of_nat k)) <$> a !! k
        else a !! k.
Proof.
  induction m as [|m (a' & Hrun & Hlen & Hval)].
  - exists a. by rewrite seqZ_nil.
  - exists (<[m := f (Z.of_nat m)]> a').
    rewrite seqZ_S, Z.add_0_l, for_each_app, Hrun. simpl.
    rewrite set_insert, length_insert. split_and!; [done..|].
    intros k. destruct (decide (k = m)) as [->|Hne].
    + rewrite decide_True by lia.
      destruct (decide (m < length a')%nat) as [Hin|Hout].
      * rewrite list_lookup_insert_eq by done.
        rewrite Hlen in Hin. apply lookup_lt_is_Some in Hin as [x ->]. done.
      * rewrite list_insert_ge by lia. rewrite Hval, decide_False by lia.
        rewrite Hlen in Hout. rewrite lookup_ge_None_2 by lia. done.
    + rewrite list_lookup_insert_ne by done. rewrite Hval.
      repeat case_decide; done || lia.
Qed.

Lemma length_list_ascii_of_string (s : string) :
  length (String.list_ascii_of_string s) = String.length s.
Proof. induction s as [|c s IH]; simpl; [done|]. by rewrite IH. Qed.

Lemma decode_ok (env : Env) (base64 s : string) (w : World) :
  atob env base64 = inr s →
  decode env base64 w
  = (Ok (Ascii.byte_of_ascii <$> String.list_ascii_of_string s), w).
Proof.
  intros Hs. unfold decode, mbind, M_bind, settle, lift. rewrite Hs.
  rewrite for_lt_of_Z.
  destruct (for_each_write (charCodeAt s)
              (replicate (Z.to_nat (Z.of_nat (String.length s))) x00)
              (String.length s)) as (a' & -> & Hlen & Hval).
  f_equal. f_equal. apply list_eq. intros k.
  rewrite Hval, list_lookup_fmap. rewrite Nat2Z.id.
  unfold charCodeAt. rewrite get_lookup.
  destruct (decide (k < String.length s)%nat) as [Hk|Hk].
  - rewrite lookup_replicate_2 by done.
    destruct (lookup_lt_is_Some_2 (String.list_ascii_of_string s) k)
      as [c ->]; [by rewrite length_list_ascii_of_string|]. done.
  - rewrite (lookup_ge_None_2 (String.list_ascii_of_string s))
      by (rewrite length_list_ascii_of_string; lia).
    apply lookup_replicate_None. lia.
Qed.

Lemma decode_throw (env : Env) (base64 : string) (e : exn) (w : World) :
  atob env base64 = inl e → decode env base64 w = (Throw e, w).
Proof. intros He. unfold decode, mbind, M_bind, settle. by rewrite He. Qed.

(** X6. [decode] returns the bytes of the binary string that [atob] makes
    of its argument, one per character and in order, and leaves the page as
    it was; when [atob] rejects the argument, [decode] throws that error. *)
Theorem X6_decode_bytes (env : Env) (base64 : string) (w : World) :
  (∀ s, atob env base64 = inr s →
     decode env base64 w
     = (Ok (Ascii.byte_of_ascii <$> String.list_ascii_of_string s), w))
  ∧ (∀ e, atob env base64 = inl e → decode env base64 w = (Throw e, w)).
Proof.
  split; [intros s; apply decode_ok | intros e; apply decode_throw].
Qed.

Lemma X6_witness :
  decode (env_online no_response) "AAD/fw==" world0
  = (Ok [x00; x00; xff; x7f], world0)
  ∧ decode env_offline "%%%" world0 = (Throw InvalidCharacterError, world0).
Proof.
  split.
  - exact (proj1 (X6_decode_bytes (env_online no_response) "AAD/fw==" world0)
             (String.string_of_list_ascii
                (Ascii.ascii_of_byte <$> [x00; x00; xff; x7f])) eq_refl).
  - exact (proj2 (X6_decode_bytes env_offline "%%%" world0) _ eq_refl).
Defined.

(** ** playAudio *)

Lemma falsy_Some (s : string) : s ≠ EmptyString → falsy (Some s) = false.
Proof. intros Hs. simpl. by apply bool_decide_eq_false. Qed.

(** The [try] block up to the point where it holds a running context. *)
Lemma playAudio_try_context (env : Env) (text voiceName : string) (w : World)
    (response : GenerateContentResponse) (base64 : string)
    (c0 ctx : AudioContext) :
  generateContent env (SpeechRequest text voiceName) = inr response →
  first_inline_data response = Some base64 → base64 ≠ EmptyString →
  match audioContext w with
  | Some c => c0 = c
  | None => new_AudioContext env 24000 = inr c0
  end →
  match state c0 with
  | suspended => resume env c0 = inr ctx
  | _ => ctx = c0
  end →
  playAudio_try env text voiceName w
  = (bytes ← decode env base64;
     audioBuffer ← lift (decodeAudioData bytes ctx 24000 1);
     _ ← settle (start_source env ctx audioBuffer);
     emit (Started audioBuffer)) (with_context w ctx).
Proof.
  intros Hgen Hdata Hne Hc0 Hctx.
  unfold playAudio_try, with_context.
  unfold mbind at 1. unfold M_bind at 1. unfold settle at 1.
  rewrite Hgen, Hdata, (falsy_Some _ Hne).
  unfold mbind at 1. unfold M_bind at 1. unfold get_audioContext.
  destruct w as [[c|] evs reads]; simpl in Hc0 |- *.
  - subst c0. unfold mbind at 1. unfold M_bind at 1. unfold mret, M_ret.
    unfold mbind at 1. unfold M_bind at 1.
    destruct (state c) eqn:Hst; simpl in Hctx |- *.
    + unfold mbind at 1. unfold M_bind at 1. unfold settle at 1.
      rewrite Hctx. done.
    + by subst ctx.
    + by subst ctx.
  - unfold mbind at 1. unfold M_bind at 1.
    unfold mbind at 1. unfold M_bind at 1. unfold settle at 1.
    rewrite Hc0. unfold set_audioContext at 1; simpl.
    unfold mret, M_ret. unfold mbind at 1. unfold M_bind at 1.
    destruct (state c0) eqn:Hst; simpl in Hctx |- *.
    + unfold mbind at 1. unfold M_bind at 1. unfold settle at 1.
      rewrite Hctx. done.
    + by subst ctx.
    + by subst ctx.
Qed.

Lemma length_bytes_of (s : string) :
  Z.of_nat (length (bytes_of s)) = Z.of_nat (String.length s).
Proof.
  unfold bytes_of. by rewrite length_fmap, length_list_ascii_of_string.
Qed.

(** X7. When the response carries audio data, a context is at hand (the
    page's own, or a new one, resumed if it was suspended), the data decode
    to a non-empty even number of bytes and the source starts, [playAudio]
    starts exactly the buffer decoded from these bytes as mono at 24000 Hz,
    keeps the context, and neither logs nor speaks. *)
Theorem X7_playAudio_plays (env : Env) (text voiceName : string) (w : World)
    (response : GenerateContentResponse) (base64 s : string)
    (c0 ctx : AudioContext) :
  generateContent env (SpeechRequest text voiceName) = inr response →
  first_inline_data response = Some base64 → base64 ≠ EmptyString →
  match audioContext w with
  | Some c => c0 = c
  | None => new_AudioContext env 24000 = inr c0
  end →
  match state c0 with
  | suspended => resume env c0 = inr ctx
  | _ => ctx = c0
  end →
  atob env base64 = inr s →
  String.length s ≠ 0%nat → Z.of_nat (String.length s) mod 2 = 0 →
  start_source env ctx (decoded (bytes_of s) 24000 1) = inr () →
  playAudio env text voiceName w
  = (Ok (), with_events (with_context w ctx)
                        [Started (decoded (bytes_of s) 24000 1)]).
Proof.
  intros Hgen Hdata Hne Hc0 Hctx Hatob Hlen Heven Hstart.
  unfold playAudio, try_catch.
  rewrite (playAudio_try_context _ _ _ _ _ _ _ _ Hgen Hdata Hne Hc0 Hctx).
  unfold mbind at 1. unfold M_bind at 1.
  rewrite (decode_ok _ _ _ _ Hatob). fold (bytes_of s).
  unfold mbind at 1. unfold M_bind at 1. unfold lift at 1.
  rewrite decodeAudioData_ok;
    [|lia|lia|by apply in_nominal_range_standard|by rewrite length_bytes_of|].
  - unfold mbind at 1. unfold M_bind at 1. unfold settle at 1.
    rewrite Hstart. done.
  - rewrite length_bytes_of, Z.div_1_r.
    pose proof (Z.div_mod (Z.of_nat (String.length s)) 2 ltac:(lia)). lia.
Qed.

Lemma X7_witness :
  playAudio (env_online (audio_response "AAD/fw==")) "hola" "Kore" world0
  = (Ok (),
     with_events
       (with_context world0 ctx0)
       [Started (decoded [x00; x00; xff; x7f] 24000 1)]).
Proof.
  exact (X7_playAudio_plays (env_online (audio_response "AAD/fw=="))
           "hola" "Kore" world0 (audio_response "AAD/fw==") "AAD/fw=="
           (String.string_of_list_ascii
              (Ascii.ascii_of_byte <$> [x00; x00; xff; x7f]))
           ctx0
           ctx0
           eq_refl eq_refl ltac:(discriminate) eq_refl eq_refl eq_refl
           ltac:(discriminate) eq_refl eq_refl).
Defined.

(** X8. Audio data that decode to no bytes or to an odd number of bytes are
    refused by the decoder; [playAudio] catches that error, logs it and
    speaks the text, the context staying in place. *)
Theorem X8_playAudio_bad_bytes (env : Env) (text voiceName : string)
    (w : World) (response : GenerateContentResponse) (base64 s : string)
    (c0 ctx : AudioContext) :
  generateContent env (SpeechRequest text voiceName) = inr response →
  first_inline_data response = Some base64 → base64 ≠ EmptyString →
  match audioContext w with
  | Some c => c0 = c
  | None => new_AudioContext env 24000 = inr c0
  end →
  match state c0 with
  | suspended => resume env c0 = inr ctx
  | _ => ctx = c0
  end →
  atob env base64 = inr s →
  String.length s = 0%nat ∨ Z.of_nat (String.length s) mod 2 ≠ 0 →
  ∃ e, InvalidArgument e = true
    ∧ playAudio env text voiceName w
      = (Ok (), with_events (with_context w ctx)
                  [ConsoleError "Audio generation failed:" e; Spoken text]).
Proof.
  intros Hgen Hdata Hne Hc0 Hctx Hatob Hbad.
  unfold playAudio, try_catch.
  rewrite (playAudio_try_context _ _ _ _ _ _ _ _ Hgen Hdata Hne Hc0 Hctx).
  unfold mbind at 1. unfold M_bind at 1.
  rewrite (decode_ok _ _ _ _ Hatob). fold (bytes_of s).
  unfold mbind at 1. unfold M_bind at 1. unfold lift at 1.
  rewrite decodeAudioData_cases, length_bytes_of.
  destruct (Z.eqb_spec (Z.of_nat (String.length s) mod 2) 0) as [Heven|Hodd];
    simpl.
  - destruct Hbad as [Hzero|Hodd]; [|done]. rewrite Hzero. simpl.
    exists NotSupportedError. split; [done|].
    unfold playAudio_catch, mbind, M_bind, emit, with_events. simpl.
    by rewrite <- app_assoc.
  - exists RangeError. split; [done|].
    unfold playAudio_catch, mbind, M_bind, emit, with_events. simpl.
    by rewrite <- app_assoc.
Qed.

Lemma X8_witness :
  ∃ e, InvalidArgument e = true
    ∧ playAudio (env_bytes [x00; x00; xff]) "hola" "Kore" world0
      = (Ok (),
         with_events
           (with_context world0
              ctx0)
           [ConsoleError "Audio generation failed:" e; Spoken "hola"]).
Proof.
  apply (X8_playAudio_bad_bytes (env_bytes [x00; x00; xff])
           "hola" "Kore" world0 (audio_response "AAAA") "AAAA"
           (String.string_of_list_ascii
              (Ascii.ascii_of_byte <$> [x00; x00; xff]))
           ctx0
           ctx0);
    [reflexivity | reflexivity | discriminate | reflexivity | reflexivity
    | reflexivity | right; vm_compute; discriminate].
Defined.

(** The end of the [try] block leaves the context and the clock alone. *)
Lemma playAudio_from_world (env : Env) (ctx : AudioContext) (base64 : string)
    (w w1 : World) (r : result unit) :
  playAudio_from env ctx base64 w = (r, w1) →
  audioContext w1 = audioContext w ∧ clock_reads w1 = clock_reads w.
Proof.
  unfold playAudio_from. unfold mbind at 1. unfold M_bind at 1.
  destruct (atob env base64) as [e|s] eqn:Hatob.
  { rewrite (decode_throw _ _ _ _ Hatob). by intros [= <- <-]. }
  rewrite (decode_ok _ _ _ _ Hatob).
  unfold mbind at 1. unfold M_bind at 1. unfold lift at 1.
  destruct (decodeAudioData _ ctx 24000 1) as [buffer|e|];
    [|by intros [= <- <-]..].
  unfold mbind at 1. unfold M_bind at 1. unfold settle at 1.
  destruct (start_source env ctx buffer) as [e|[]]; [by intros [= <- <-]|].
  unfold emit. by intros [= <- <-].
Qed.

(** The [try] block, step by step. *)
Lemma playAudio_try_steps (env : Env) (text voiceName : string) (w : World) :
  playAudio_try env text voiceName w =
  match generateContent env (SpeechRequest text voiceName) with
  | inl e => (Throw e, w)
  | inr response =>
      match first_inline_data response with
      | None => (Throw (JsError "No audio data returned"), w)
      | Some base64 =>
          if bool_decide (base64 = EmptyString)
          then (Throw (JsError "No audio data returned"), w)
          else
            match audioContext w with
            | Some c => playAudio_resumed env c base64 w
            | None =>
                match new_AudioContext env 24000 with
                | inl e => (Throw e, w)
                | inr c0 => playAudio_resumed env c0 base64 (with_context w c0)
                end
            end
      end
  end.
Proof.
  unfold playAudio_try.
  unfold mbind at 1. unfold M_bind at 1. unfold settle at 1.
  destruct (generateContent env _) as [e|response]; [done|].
  destruct (first_inline_data response) as [base64|]; [|done].
  unfold falsy. destruct (bool_decide (base64 = EmptyString)); [done|].
  unfold mbind at 1. unfold M_bind at 1. unfold get_audioContext.
  unfold mbind at 1. unfold M_bind at 1.
  destruct (audioContext w) as [c|] eqn:Hc.
  - unfold mret, M_ret. unfold mbind at 1. unfold M_bind at 1.
    unfold playAudio_resumed.
    destruct (state c); [|done..].
    unfold mbind at 1. unfold M_bind at 1. unfold settle at 1.
    by destruct (resume env c).
  - unfold mbind at 1. unfold M_bind at 1. unfold settle at 1.
    destruct (new_AudioContext env 24000) as [e|c0]; [done|].
    unfold set_audioContext at 1. unfold mret, M_ret.
    unfold mbind at 1. unfold M_bind at 1.
    unfold playAudio_resumed.
    destruct (state c0); [|done..].
    unfold mbind at 1. unfold M_bind at 1. unfold settle at 1.
    by destruct (resume env c0).
Qed.

Lemma playAudio_resumed_world (env : Env) (c : AudioContext)
    (base64 : string) (w w1 : World) (r : result unit) :
  playAudio_resumed env c base64 w = (r, w1) →
  clock_reads w1 = clock_reads w
  ∧ (audioContext w1 = audioContext w
     ∨ state c = suspended
       ∧ ∃ c', resume env c = inr c' ∧ audioContext w1 = Some c').
Proof.
  unfold playAudio_resumed.
  destruct (state c) eqn:Hst.
  - destruct (resume env c) as [e|c'] eqn:Hres.
    + intros [= <- <-]. auto.
    + intros [Hctx Hclock]%playAudio_from_world. split; [done|].
      right. split; [done|]. by exists c'.
  - intros [Hctx Hclock]%playAudio_from_world. auto.
  - intros [Hctx Hclock]%playAudio_from_world. auto.
Qed.

(** X9. [playAudio] keeps the audio context of the page, also when it ends
    in the fallback: a context that is not suspended stays the very same, a
    suspended one stays or is replaced by what [resume] made of it, and a
    context is made only when the page had none.  The clock is not read. *)
Theorem X9_context_kept (env : Env) (text voiceName : string) (w w' : World)
    (r : result unit) :
  playAudio env text voiceName w = (r, w') →
  clock_reads w' = clock_reads w
  ∧ (∀ c, audioContext w = Some c →
       ∃ c', audioContext w' = Some c'
         ∧ (state c ≠ suspended → c' = c)
         ∧ (c' = c ∨ resume env c = inr c'))
  ∧ (audioContext w = None →
     audioContext w' = None
     ∨ ∃ c0 c', new_AudioContext env 24000 = inr c0
         ∧ audioContext w' = Some c'
         ∧ (c' = c0 ∨ resume env c0 = inr c')).
Proof.
  intros Hrun.
  assert (∃ r1 w1, playAudio_try env text voiceName w = (r1, w1)
                   ∧ audioContext w' = audioContext w1
                   ∧ clock_reads w' = clock_reads w1)
    as (r1 & w1 & Htry & Hctx & Hclock).
  { unfold playAudio, try_catch in Hrun.
    destruct (playAudio_try env text voiceName w) as [r1 w1].
    exists r1, w1. split; [done|].
    destruct r1 as [[]|e|]; by injection Hrun as <- <-. }
  rewrite Hctx, Hclock. clear Hrun Hctx Hclock w'.
  rewrite playAudio_try_steps in Htry.
  destruct (generateContent env _) as [e|response];
    [injection Htry as <- <-; split_and!; [done|eauto|auto]|].
  destruct (first_inline_data response) as [base64|];
    [|injection Htry as <- <-; split_and!; [done|eauto|auto]].
  destruct (bool_decide (base64 = EmptyString));
    [injection Htry as <- <-; split_and!; [done|eauto|auto]|].
  destruct (audioContext w) as [c|] eqn:Hc.
  - apply playAudio_resumed_world in Htry as [Hclock Hctx].
    split_and!; [done| |done].
    intros ? [= <-]. rewrite Hc in Hctx.
    destruct Hctx as [Hsame|(Hst & c' & Hres & Hnew)]; eauto.
    exists c'. split_and!; [done| by intros []| auto].
  - destruct (new_AudioContext env 24000) as [e|c0] eqn:Hnew;
      [injection Htry as <- <-; split_and!; [done|done|auto]|].
    apply playAudio_resumed_world in Htry as [Hclock Hctx].
    split_and!; [done|done|]. intros _. right. exists c0.
    destruct Hctx as [Hsame|(Hst & c' & Hres & Hnew')]; [|by eauto 6].
    exists c0. auto.
Qed.

(** Three calls: on a page without a context (one is made), on a page whose
    context is suspended (it is resumed and played on), and on a page with a
    running context and no network (the fallback keeps the context). *)
Lemma X9_witness :
  (∃ w',
     playAudio (env_online (audio_response "AAD/fw==")) "hola" "Kore" world0
     = (Ok (), w')
     ∧ clock_reads w' = clock_reads world0
     ∧ ∃ c0 c',
         new_AudioContext (env_online (audio_response "AAD/fw==")) 24000
         = inr c0
         ∧ audioContext w' = Some c'
         ∧ (c' = c0
            ∨ resume (env_online (audio_response "AAD/fw==")) c0 = inr c'))
  ∧ (∃ w',
       playAudio (env_online (audio_response "AAD/fw==")) "hola" "Kore"
         (with_context world0 ctx_suspended) = (Ok (), w')
       ∧ clock_reads w' = clock_reads world0
       ∧ ∃ c',
           audioContext w' = Some c'
           ∧ (c' = ctx_suspended
              ∨ resume (env_online (audio_response "AAD/fw==")) ctx_suspended
                = inr c'))
  ∧ (∃ w',
       playAudio env_offline "hola" "Kore" (with_context world0 ctx0)
       = (Ok (), w')
       ∧ clock_reads w' = clock_reads world0
       ∧ audioContext w' = Some ctx0).
Proof.
  split_and!.
  - assert (Hrun :
      playAudio (env_online (audio_response "AAD/fw==")) "hola" "Kore" world0
      = (Ok (),
         with_events (with_context world0 ctx0)
           [Started (decoded [x00; x00; xff; x7f] 24000 1)]))
      by (vm_compute; reflexivity).
    destruct (X9_context_kept _ _ _ _ _ _ Hrun) as (Hclock & _ & Hnone).
    eexists. split; [exact Hrun|]. split; [exact Hclock|].
    destruct (Hnone eq_refl) as [Hno|Hnew]; [discriminate Hno | exact Hnew].
  - assert (Hrun :
      playAudio (env_online (audio_response "AAD/fw==")) "hola" "Kore"
        (with_context world0 ctx_suspended)
      = (Ok (),
         with_events (with_context world0 ctx0)
           [Started (decoded [x00; x00; xff; x7f] 24000 1)]))
      by (vm_compute; reflexivity).
    destruct (X9_context_kept _ _ _ _ _ _ Hrun) as (Hclock & Hsome & _).
    eexists. split; [exact Hrun|]. split; [exact Hclock|].
    destruct (Hsome ctx_suspended eq_refl) as (c' & Hc' & _ & Hor).
    exists c'. split; [exact Hc' | exact Hor].
  - assert (Hrun :
      playAudio env_offline "hola" "Kore" (with_context world0 ctx0)
      = (Ok (),
         with_events (with_context world0 ctx0)
           [ConsoleError "Audio generation failed:"
              (ServiceError "Failed to fetch"); Spoken "hola"]))
      by (vm_compute; reflexivity).
    destruct (X9_context_kept _ _ _ _ _ _ Hrun) as (Hclock & Hsome & _).
    eexists. split; [exact Hrun|]. split; [exact Hclock|].
    destruct (Hsome ctx0 eq_refl) as (c' & Hc' & Hsame & _).
    rewrite Hc'. f_equal. apply Hsame. discriminate.
Defined.

(** ** lookupTerm *)

(** [lookupTerm], step by step. *)
Lemma lookupTerm_steps (env : Env) (term0 nativeLang targetLang : string)
    (w : World) :
  lookupTerm env term0 nativeLang targetLang w =
  match generateContent env (AnalysisRequest term0 nativeLang targetLang) with
  | inl e => (Throw e, w)
  | inr textResponse =>
      match JSON_parse env (text_or_empty_object textResponse) with
      | inl e => (Throw e, w)
      | inr textData =>
          (match textData with
           | None => Throw TypeError
           | Some textData =>
               Ok (built_entry env term0 textData (image_step env term0 w).1
                     (clock_reads w))
           end,
           after_two_reads (image_step env term0 w).2)
      end
  end.
Proof.
  unfold lookupTerm, image_step, try_catch, mbind, M_bind, mret, M_ret,
    settle, emit, now, throw.
  destruct (generateContent env (AnalysisRequest _ _ _)) as [e|textResponse];
    [done|].
  destruct (JSON_parse env _) as [e|[textData|]]; [done|..];
    by destruct (generateContent env (ImageRequest term0)).
Qed.

(** X10. A failure of the analysis step is the failure of the lookup: when
    the analysis request is rejected, or its text does not parse,
    [lookupTerm] throws that very error and leaves the page untouched (no
    warning, no reading of the clock). *)
Theorem X10_lookup_text_failure (env : Env)
    (term0 nativeLang targetLang : string) (w : World) :
  (∀ e, generateContent env (AnalysisRequest term0 nativeLang targetLang)
        = inl e →
     lookupTerm env term0 nativeLang targetLang w = (Throw e, w))
  ∧ (∀ textResponse e,
       generateContent env (AnalysisRequest term0 nativeLang targetLang)
       = inr textResponse →
       JSON_parse env (text_or_empty_object textResponse) = inl e →
       lookupTerm env term0 nativeLang targetLang w = (Throw e, w)).
Proof.
  split.
  - intros e He. by rewrite lookupTerm_steps, He.
  - intros textResponse e Hr He. by rewrite lookupTerm_steps, Hr, He.
Qed.

Lemma X10_witness :
  lookupTerm env_offline "hola" "English" "Spanish" world0
  = (Throw (ServiceError "Failed to fetch"), world0).
Proof.
  apply (proj1 (X10_lookup_text_failure env_offline "hola" "English" "Spanish"
                  world0)).
  reflexivity.
Defined.

(** X24. When the text of the analysis parses to [null], [lookupTerm] fails
    late: the image step runs (with its warning when the image request is
    rejected), the clock is read twice, and then reading a field of the
    parsed text throws a TypeError. *)
Theorem X24_lookup_null (env : Env) (term0 nativeLang targetLang : string)
    (w : World) (textResponse : GenerateContentResponse) :
  generateContent env (AnalysisRequest term0 nativeLang targetLang)
  = inr textResponse →
  JSON_parse env
    (match text textResponse with
     | Some t => if bool_decide (t = EmptyString) then "{}" else t
     | None => "{}"
     end)
  = inr None →
  lookupTerm env term0 nativeLang targetLang w
  = (Throw TypeError,
     {| audioContext := audioContext w;
        events :=
          events w
          ++ match generateContent env (ImageRequest term0) with
             | inl e =>
                 [ConsoleWarn "Image generation failed, using placeholder" e]
             | inr _ => []
             end;
        clock_reads := S (S (clock_reads w)) |}).
Proof.
  intros Htext Hparse. rewrite <- text_or_empty_object_spec in Hparse.
  rewrite lookupTerm_steps, Htext, Hparse. f_equal.
  unfold after_two_reads, image_step.
  destruct (generateContent env (ImageRequest term0)); simpl; [done|].
  by rewrite app_nil_r.
Qed.

Lemma X24_witness :
  lookupTerm env_null "hola" "English" "Spanish" world0
  = (Throw TypeError,
     {| audioContext := None;
        events := [ConsoleWarn "Image generation failed, using placeholder"
                     (ServiceError "RESOURCE_EXHAUSTED")];
        clock_reads := 2 |}).
Proof.
  apply (X24_lookup_null env_null "hola" "English" "Spanish" world0
           {| candidates := None; text := Some "null" |});
    reflexivity.
Defined.

Lemma first_image_app (pre post : list Part) (p : Part) (b : Blob) :
  Forall (λ p, inlineData p = None) pre → inlineData p = Some b →
  first_image (pre ++ p :: post) = Some (data_url b).
Proof.
  intros Hpre Hp. induction Hpre as [|q pre Hq _ IH]; simpl.
  - by rewrite Hp.
  - by rewrite Hq.
Qed.

(** X11. When the steps of the analysis succeed, the text parsing to a value
    other than [null], and the image response has a part with inline data, the entry's image is the data URL of the first
    such part, "data:<mime type>;base64,<data>"; the parts before it (they
    have no inline data) and all parts after it play no role, and no warning
    is logged. *)
Theorem X11_lookup_image (env : Env) (term0 nativeLang targetLang : string)
    (w : World) (textResponse imageResponse : GenerateContentResponse)
    (textData : TextData) (pre post : list Part) (p : Part)
    (mime base64 : string) :
  generateContent env (AnalysisRequest term0 nativeLang targetLang)
  = inr textResponse →
  JSON_parse env (text_or_empty_object textResponse) = inr (Some textData) →
  generateContent env (ImageRequest term0) = inr imageResponse →
  parts_or_empty imageResponse = pre ++ p :: post →
  Forall (λ p, inlineData p = None) pre →
  inlineData p = Some {| mimeType := Some mime; data := Some base64 |} →
  ∃ entry w',
    lookupTerm env term0 nativeLang targetLang w = (Ok entry, w')
    ∧ imageUrl entry = Some ("data:" +:+ mime +:+ ";base64," +:+ base64)
    ∧ events w' = events w.
Proof.
  intros Htext Hparse Himg Hparts Hpre Hp.
  rewrite lookupTerm_steps, Htext, Hparse. unfold image_step.
  rewrite Himg, Hparts, (first_image_app _ _ _ _ Hpre Hp).
  do 2 eexists. split; [done|]. done.
Qed.

Lemma X11_witness :
  ∃ entry w',
    lookupTerm (env_image [text_part; png_part; text_part])
      "hola" "English" "Spanish" world0 = (Ok entry, w')
    ∧ imageUrl entry
      = Some ("data:" +:+ "image/png" +:+ ";base64," +:+ "iVBORw0KGgo=")
    ∧ events w' = events world0.
Proof.
  apply (X11_lookup_image (env_image [text_part; png_part; text_part])
           "hola" "English" "Spanish" world0
           {| candidates := None; text := Some hola_json |}
           {| candidates :=
                Some [ {| content :=
                            Some {| parts :=
                                      Some [text_part; png_part; text_part]
                                 |} |} ];
              text := None |}
           hola_data [text_part] [text_part] png_part);
    [reflexivity | reflexivity | reflexivity | reflexivity
    | by repeat constructor | reflexivity].
Defined.

Lemma image_step_world (env : Env) (term0 : string) (w : World) :
  audioContext (image_step env term0 w).2 = audioContext w
  ∧ clock_reads (image_step env term0 w).2 = clock_reads w
  ∧ events (image_step env term0 w).2
    = events w
      ++ match generateContent env (ImageRequest term0) with
         | inl e =>
             [ConsoleWarn "Image generation failed, using placeholder" e]
         | inr _ => []
         end.
Proof.
  unfold image_step. destruct (generateContent env _); simpl; [done|].
  by rewrite app_nil_r.
Qed.

Lemma lookupTerm_Ok_inv (env : Env) (term0 nativeLang targetLang : string)
    (w w1 : World) (entry : DictionaryEntry) :
  lookupTerm env term0 nativeLang targetLang w = (Ok entry, w1) →
  ∃ textData,
    entry = built_entry env term0 textData (image_step env term0 w).1
              (clock_reads w)
    ∧ w1 = after_two_reads (image_step env term0 w).2.
Proof.
  rewrite lookupTerm_steps.
  destruct (generateContent env (AnalysisRequest _ _ _)); [done|].
  destruct (JSON_parse env _) as [e|[textData|]]; [done| |done].
  intros [= <- <-]. by exists textData.
Qed.

(** X12. The id of an entry is the decimal form of the clock reading taken
    when the entry is built, and [savedAt] is the reading after it.  So two
    lookups made one after the other give entries with the same id exactly
    when the clock shows the same value at both constructions. *)
Theorem X12_entry_ids (env : Env) (term1 native1 target1 : string)
    (term2 native2 target2 : string) (w w1 w2 : World)
    (entry1 entry2 : DictionaryEntry) :
  lookupTerm env term1 native1 target1 w = (Ok entry1, w1) →
  lookupTerm env term2 native2 target2 w1 = (Ok entry2, w2) →
  entryId entry1 = pretty (Date_now env (clock_reads w))
  ∧ savedAt entry1 = Date_now env (S (clock_reads w))
  ∧ (entryId entry1 = entryId entry2
     ↔ Date_now env (clock_reads w) = Date_now env (S (S (clock_reads w)))).
Proof.
  intros (td1 & -> & ->)%lookupTerm_Ok_inv (td2 & -> & _)%lookupTerm_Ok_inv.
  simpl. destruct (image_step_world env term1 w) as (_ & -> & _).
  split_and!; [done..|]. split; [apply (inj pretty) | by intros ->].
Qed.

Lemma X12_witness :
  entryId (built_entry (env_online no_response) "hola" hola_data None 0)
  = pretty (Date_now (env_online no_response) (clock_reads world0))
  ∧ savedAt (built_entry (env_online no_response) "hola" hola_data None 0)
    = Date_now (env_online no_response) (S (clock_reads world0))
  ∧ (entryId (built_entry (env_online no_response) "hola" hola_data None 0)
     = entryId (built_entry (env_online no_response) "adios" hola_data None 2)
     ↔ Date_now (env_online no_response) (clock_reads world0)
       = Date_now (env_online no_response) (S (S (clock_reads world0)))).
Proof.
  apply (X12_entry_ids (env_online no_response) "hola" "English" "Spanish"
           "adios" "English" "Spanish" world0
           (after_two_reads
              (image_step (env_online no_response) "hola" world0).2)
           (after_two_reads
              (image_step (env_online no_response) "adios"
                 (after_two_reads
                    (image_step (env_online no_response) "hola" world0).2)).2));
    reflexivity.
Defined.

(** X13. A lookup that returns reads the clock twice, leaves the audio
    context alone and logs one warning when the image request was rejected,
    nothing otherwise. *)
Theorem X13_lookup_effects (env : Env) (term0 nativeLang targetLang : string)
    (w w1 : World) (entry : DictionaryEntry) :
  lookupTerm env term0 nativeLang targetLang w = (Ok entry, w1) →
  clock_reads w1 = S (S (clock_reads w))
  ∧ audioContext w1 = audioContext w
  ∧ events w1
    = events w
      ++ match generateContent env (ImageRequest term0) with
         | inl e =>
             [ConsoleWarn "Image generation failed, using placeholder" e]
         | inr _ => []
         end.
Proof.
  intros (td & _ & ->)%lookupTerm_Ok_inv.
  destruct (image_step_world env term0 w) as (Hctx & Hclock & Hev).
  simpl. by rewrite Hctx, Hclock, Hev.
Qed.

Lemma X13_witness :
  clock_reads
    (after_two_reads
       (image_step (env_online no_response) "hola" world0).2)
  = S (S (clock_reads world0))
  ∧ audioContext
      (after_two_reads
         (image_step (env_online no_response) "hola" world0).2)
    = audioContext world0
  ∧ events
      (after_two_reads
         (image_step (env_online no_response) "hola" world0).2)
    = events world0
      ++ match generateContent (env_online no_response)
                 (ImageRequest "hola") with
         | inl e =>
             [ConsoleWarn "Image generation failed, using placeholder" e]
         | inr _ => []
         end.
Proof.
  apply (X13_lookup_effects (env_online no_response)
           "hola" "English" "Spanish" world0 _
           (built_entry (env_online no_response) "hola" hola_data None 0)).
  reflexivity.
Defined.

(** ** toggleSave *)

Lemma saveIcon_filled_true (cur : DictionaryEntry)
    (nb : list DictionaryEntry) :
  saveIcon_filled cur nb = true ↔ ∃ n, n ∈ nb ∧ term n = term cur.
Proof.
  rewrite <- list_find_term. unfold saveIcon_filled.
  destruct (list_find _ nb); split; done || by intros [? [=]].
Qed.

Lemma saveIcon_filled_false (cur : DictionaryEntry)
    (nb : list DictionaryEntry) :
  saveIcon_filled cur nb = false ↔ Forall (λ n, term n ≠ term cur) nb.
Proof.
  rewrite <- not_true_iff_false, saveIcon_filled_true, Forall_forall.
  split.
  - intros Hno n Hn Ht. apply Hno. eauto.
  - intros Hall (n & Hn & Ht). by apply (Hall n).
Qed.

Lemma filter_all {A} (P : A → Prop) `{!∀ x, Decision (P x)} (l : list A) :
  Forall P l → filter P l = l.
Proof.
  induction 1 as [|x l Hx _ IH]; [done|].
  by rewrite filter_cons_True, IH.
Qed.

(** X14. [toggleSave] flips the save icon of the current result: the term
    is in the notebook afterwards exactly when it was not before. *)
Theorem X14_toggle_flips (st : AppState) (cur : DictionaryEntry) :
  currentResult st = Some cur →
  saveIcon_filled cur (notebook (toggleSave st))
  = negb (saveIcon_filled cur (notebook st)).
Proof.
  intros Hcur. unfold toggleSave. rewrite Hcur.
  destruct (saveIcon_filled cur (notebook st)) eqn:Hsaved; simpl.
  - unfold saveIcon_filled in Hsaved.
    destruct (list_find _ (notebook st)); [simpl|done].
    apply saveIcon_filled_false, Forall_forall.
    by intros n [? _]%list_elem_of_filter.
  - unfold saveIcon_filled in Hsaved.
    destruct (list_find _ (notebook st)); [done|simpl].
    apply saveIcon_filled_true. exists cur. split; [|done].
    apply list_elem_of_here.
Qed.

Lemma X14_witness :
  saveIcon_filled (entry_of "hola") (notebook (toggleSave state0))
  = negb (saveIcon_filled (entry_of "hola") (notebook state0)).
Proof. apply (X14_toggle_flips state0 (entry_of "hola")). reflexivity. Defined.

(** X15. Saving and then unsaving restores the page: when the term of the
    current result is not in the notebook, two calls of [toggleSave] in a
    row give back the state they started from. *)
Theorem X15_save_unsave (st : AppState) (cur : DictionaryEntry) :
  currentResult st = Some cur →
  saveIcon_filled cur (notebook st) = false →
  toggleSave (toggleSave st) = st.
Proof.
  intros Hcur Hfree.
  assert (Hfirst : toggleSave st = setNotebook st (cur :: notebook st)).
  { unfold toggleSave. rewrite Hcur. unfold saveIcon_filled in Hfree.
    by destruct (list_find _ (notebook st)). }
  rewrite Hfirst. unfold toggleSave at 1. simpl. rewrite Hcur.
  rewrite decide_True by done. simpl.
  rewrite filter_cons_False by (by intros []).
  rewrite filter_all by (by apply saveIcon_filled_false).
  destruct st. simpl in *. by subst.
Qed.

Lemma X15_witness :
  toggleSave (toggleSave {| currentResult := Some (entry_of "hola");
                            notebook := [entry_of "adios"] |})
  = {| currentResult := Some (entry_of "hola");
       notebook := [entry_of "adios"] |}.
Proof.
  apply (X15_save_unsave {| currentResult := Some (entry_of "hola");
                            notebook := [entry_of "adios"] |}
           (entry_of "hola")); reflexivity.
Defined.

(** X16. [toggleSave] touches nothing but the entries with the term of the
    current result: the current result stays, the entries with other terms
    stay, in their order, and without a current result nothing changes. *)
Theorem X16_toggle_others (st : AppState) :
  currentResult (toggleSave st) = currentResult st
  ∧ (currentResult st = None → toggleSave st = st)
  ∧ (∀ cur, currentResult st = Some cur →
       filter (λ n, term n ≠ term cur) (notebook (toggleSave st))
       = filter (λ n, term n ≠ term cur) (notebook st)).
Proof.
  unfold toggleSave. split_and!.
  - destruct (currentResult st) as [cur|] eqn:Hcur; [|done].
    by destruct (list_find _ _).
  - by intros ->.
  - intros cur ->. destruct (list_find _ _); simpl.
    + rewrite list_filter_filter. apply list_filter_iff. tauto.
    + by rewrite filter_cons_False by (by intros []).
Qed.

Lemma X16_witness :
  filter (λ n, term n ≠ term (entry_of "hola"))
         (notebook (toggleSave state0))
  = filter (λ n, term n ≠ term (entry_of "hola")) (notebook state0).
Proof.
  apply (proj2 (proj2 (X16_toggle_others state0)) (entry_of "hola")).
  reflexivity.
Defined.

(** ** handleSearch *)

Lemma falsy_trim (s : string) :
  falsy (Some s) = true ↔ s = EmptyString.
Proof. simpl. apply bool_decide_eq_true. Qed.

Lemma lookupTerm_settles (env0 : Env) (term0 nativeLang0 targetLang0 : string)
    (w : World) :
  (lookupTerm env0 term0 nativeLang0 targetLang0 w).1 ≠ Diverges.
Proof.
  rewrite lookupTerm_steps.
  destruct (generateContent env0 _); [done|].
  by destruct (JSON_parse env0 _) as [|[|]].
Qed.

(** X17. A search whose analysis succeeds, its text (the empty object when
    the response has no text, or an empty one) parsing to a value other than
    [null], ends on the result view, whatever the image request does: the
    current result is the entry for the query
    exactly as typed (not trimmed), with the parsed text fields; the chat is
    replaced by a new session about that term and by its greeting alone; the
    loading flag is off, the notebook is as before and nothing is alerted. *)
Theorem X17_search_success (sv : Services) (u : UI)
    (textResponse : GenerateContentResponse) (textData : TextData) :
  trim sv (query (page u)) ≠ EmptyString →
  generateContent (env sv)
    (AnalysisRequest (query (page u)) (name (nativeLang (page u)))
       (name (targetLang (page u)))) = inr textResponse →
  JSON_parse (env sv)
    (match text textResponse with
     | Some t => if bool_decide (t = EmptyString) then "{}" else t
     | None => "{}"
     end)
  = inr (Some textData) →
  let u' := handleSearch sv u in
  ∃ result,
    currentResult (appState (page u')) = Some result
    ∧ term result = query (page u)
    ∧ definition result = td_definition textData
    ∧ view (page u') = RESULT
    ∧ isLoading (page u') = false
    ∧ chatSession (page u')
      = Some (createChatSession
                (tutor_instruction (query (page u))
                   (name (nativeLang (page u)))
                   (name (targetLang (page u)))))
    ∧ chatHistory (page u') = [greeting (query (page u))]
    ∧ notebook (appState (page u')) = notebook (appState (page u))
    ∧ shown u' = shown u.
Proof.
  intros Hq Htext Hparse. rewrite <- text_or_empty_object_spec in Hparse.
  unfold handleSearch.
  destruct (falsy (Some (trim sv (query (page u))))) eqn:Hf.
  { by apply falsy_trim in Hf. }
  rewrite lookupTerm_steps, Htext, Hparse. simpl.
  eexists. split_and!; done.
Qed.

Lemma X17_witness :
  ∃ result,
    currentResult (appState (page (handleSearch services0 ui0))) = Some result
    ∧ term result = query (page ui0)
    ∧ definition result = Some "hello"
    ∧ view (page (handleSearch services0 ui0)) = RESULT
    ∧ isLoading (page (handleSearch services0 ui0)) = false
    ∧ chatSession (page (handleSearch services0 ui0))
      = Some (createChatSession
                (tutor_instruction (query (page ui0))
                   (name (nativeLang (page ui0)))
                   (name (targetLang (page ui0)))))
    ∧ chatHistory (page (handleSearch services0 ui0))
      = [greeting (query (page ui0))]
    ∧ notebook (appState (page (handleSearch services0 ui0)))
      = notebook (appState (page ui0))
    ∧ shown (handleSearch services0 ui0) = shown ui0.
Proof.
  apply (X17_search_success services0 ui0
           {| candidates := None; text := Some hola_json |} hola_data);
    [discriminate | reflexivity | reflexivity].
Defined.

(** X18. A search whose analysis fails (the request is rejected or its text
    does not parse) ends on the home view with the loading flag off: the
    error is logged, then one alert is shown, and the current result, the
    notebook, the chat and the audio state stay as they were. *)
Theorem X18_search_failure (sv : Services) (u : UI) (e : exn) :
  trim sv (query (page u)) ≠ EmptyString →
  (generateContent (env sv)
     (AnalysisRequest (query (page u)) (name (nativeLang (page u)))
        (name (targetLang (page u)))) = inl e
   ∨ ∃ textResponse,
       generateContent (env sv)
         (AnalysisRequest (query (page u)) (name (nativeLang (page u)))
            (name (targetLang (page u)))) = inr textResponse
       ∧ JSON_parse (env sv) (text_or_empty_object textResponse) = inl e) →
  handleSearch sv u
  = {| page := setIsLoading false (setView HOME (page u));
       world := world u;
       shown := shown u
                ++ [LoggedError e;
                    Alert "Oops! Something went wrong finding that word."] |}.
Proof.
  intros Hq Hfail. unfold handleSearch.
  destruct (falsy (Some (trim sv (query (page u))))) eqn:Hf.
  { by apply falsy_trim in Hf. }
  rewrite lookupTerm_steps.
  destruct Hfail as [->|(textResponse & -> & ->)]; done.
Qed.

Lemma X18_witness :
  handleSearch
    {| env := env_offline; trim := trim services0;
       sendMessage := sendMessage services0;
       generateStory := generateStory services0;
       JSON_parse_story := JSON_parse_story services0 |} ui0
  = {| page := setIsLoading false (setView HOME (page ui0));
       world := world ui0;
       shown := shown ui0
                ++ [LoggedError (ServiceError "Failed to fetch");
                    Alert "Oops! Something went wrong finding that word."] |}.
Proof.
  apply (X18_search_failure
           {| env := env_offline; trim := trim services0;
              sendMessage := sendMessage services0;
              generateStory := generateStory services0;
              JSON_parse_story := JSON_parse_story services0 |} ui0);
    [discriminate | left; reflexivity].
Defined.

(** X19. Whatever the services answer, [handleSearch] does nothing at all
    for a query that trims to the empty string, and otherwise never leaves
    the loading flag on: it ends with the flag off, on the home or the
    result view, the query and the notebook unchanged. *)
Theorem X19_search_always (sv : Services) (u : UI) :
  (trim sv (query (page u)) = EmptyString → handleSearch sv u = u)
  ∧ (trim sv (query (page u)) ≠ EmptyString →
     isLoading (page (handleSearch sv u)) = false
     ∧ (view (page (handleSearch sv u)) = HOME
        ∨ view (page (handleSearch sv u)) = RESULT)
     ∧ query (page (handleSearch sv u)) = query (page u)
     ∧ notebook (appState (page (handleSearch sv u)))
       = notebook (appState (page u))).
Proof.
  unfold handleSearch. split.
  - intros Hq. by rewrite (proj2 (falsy_trim _) Hq).
  - intros Hq.
    destruct (falsy (Some (trim sv (query (page u))))) eqn:Hf.
    { by apply falsy_trim in Hf. }
    pose proof (lookupTerm_settles (env sv) (query (page u))
                  (name (nativeLang (page u))) (name (targetLang (page u)))
                  (world u)) as Hs.
    destruct (lookupTerm _ _ _ _ _) as [[result|e|] w']; simpl in *;
      [auto..|done].
Qed.

Lemma X19_witness :
  handleSearch services0
    {| page := setChatInput "plural?" (setView NOTEBOOK blank_page);
       world := world0; shown := [] |}
  = {| page := setChatInput "plural?" (setView NOTEBOOK blank_page);
       world := world0; shown := [] |}
  ∧ isLoading (page (handleSearch services0 ui0)) = false.
Proof.
  split.
  - apply (proj1 (X19_search_always services0
                    {| page := setChatInput "plural?"
                                 (setView NOTEBOOK blank_page);
                       world := world0; shown := [] |})).
    reflexivity.
  - apply (proj2 (X19_search_always services0 ui0)). discriminate.
Defined.

(** ** handleChatSend *)

(** X20. With a chat session and an input that does not trim to the empty
    string, a message that the chat answers extends the history by exactly
    two messages: the input as typed, from the user, and the answer of the
    model, or "I didn't catch that." when the answer has no text.  The input
    box is emptied, the loading flag is off and nothing is logged. *)
Theorem X20_chat_answer (sv : Services) (u : UI) (session : Chat)
    (resultText : option string) :
  chatSession (page u) = Some session →
  trim sv (chatInput (page u)) ≠ EmptyString →
  sendMessage sv session (chatInput (page u)) = inr resultText →
  let u' := handleChatSend sv u in
  chatHistory (page u')
  = chatHistory (page u)
    ++ [ {| role := user; messageText := chatInput (page u) |};
         {| role := model;
            messageText :=
              match resultText with
              | Some t =>
                  if bool_decide (t = EmptyString) then "I didn't catch that."
                  else t
              | None => "I didn't catch that."
              end |} ]
  ∧ chatInput (page u') = EmptyString
  ∧ isChatLoading (page u') = false
  ∧ shown u' = shown u.
Proof.
  intros Hs Hq Hsend. unfold handleChatSend. rewrite Hs.
  destruct (falsy (Some (trim sv (chatInput (page u))))) eqn:Hf.
  { by apply falsy_trim in Hf. }
  rewrite Hsend. simpl. rewrite <- app_assoc. simpl.
  split_and!; [|done..]. do 3 f_equal.
  destruct resultText as [t|]; simpl; [|done]. by destruct (bool_decide _).
Qed.

Lemma X20_witness :
  chatHistory (page (handleChatSend services0 ui0))
  = chatHistory (page ui0)
    ++ [ {| role := user; messageText := chatInput (page ui0) |};
         {| role := model;
            messageText :=
              match Some "adioses" with
              | Some t =>
                  if bool_decide (t = EmptyString) then "I didn't catch that."
                  else t
              | None => "I didn't catch that."
              end |} ]
  ∧ chatInput (page (handleChatSend services0 ui0)) = EmptyString
  ∧ isChatLoading (page (handleChatSend services0 ui0)) = false
  ∧ shown (handleChatSend services0 ui0) = shown ui0.
Proof.
  apply (X20_chat_answer services0 ui0
           (createChatSession (tutor_instruction "adios" "English" "Spanish"))
           (Some "adioses")); [reflexivity | discriminate | reflexivity].
Defined.

(** X21. [handleChatSend] never removes a message: the history before is a
    prefix of the history after, whatever the chat does.  Without a session,
    or with an input that trims to the empty string, nothing changes at all;
    when the chat rejects the message, the user's message stays in the
    history, the error is logged and the loading flag is off.  The view, the
    current result, the notebook, the story and the audio state are never
    touched. *)
Theorem X21_chat_keeps (sv : Services) (u : UI) :
  let u' := handleChatSend sv u in
  chatHistory (page u) `prefix_of` chatHistory (page u')
  ∧ (chatSession (page u) = None ∨ trim sv (chatInput (page u)) = EmptyString
     → u' = u)
  ∧ (∀ session e,
       chatSession (page u) = Some session →
       trim sv (chatInput (page u)) ≠ EmptyString →
       sendMessage sv session (chatInput (page u)) = inl e →
       chatHistory (page u')
       = chatHistory (page u)
         ++ [ {| role := user; messageText := chatInput (page u) |} ]
       ∧ isChatLoading (page u') = false
       ∧ shown u' = shown u ++ [LoggedError e])
  ∧ view (page u') = view (page u)
  ∧ appState (page u') = appState (page u)
  ∧ story (page u') = story (page u)
  ∧ world u' = world u.
Proof.
  unfold handleChatSend.
  destruct (chatSession (page u)) as [session|] eqn:Hs.
  2:{ split_and!; try done; try by intros ?? [=]. }
  destruct (falsy (Some (trim sv (chatInput (page u))))) eqn:Hf.
  { apply falsy_trim in Hf. split_and!; try done; try by intros ?? _ []. }
  assert (Hq : trim sv (chatInput (page u)) ≠ EmptyString).
  { intros Hq. apply falsy_trim in Hq. congruence. }
  destruct (sendMessage sv session (chatInput (page u))) as [e|t] eqn:Hsend;
    simpl.
  - split_and!; try done; try (by apply prefix_app_r);
      try (by intros [[=]|?]).
    intros ? e0 [= <-] _ He0. rewrite Hsend in He0. by injection He0 as <-.
  - split_and!; try done; try (by intros [[=]|?]).
    + rewrite <- app_assoc. by apply prefix_app_r.
    + intros ? e0 [= <-] _ He0. rewrite Hsend in He0. discriminate.
Qed.

Lemma X21_witness :
  handleChatSend services0
    {| page := blank_page; world := world0; shown := [] |}
  = {| page := blank_page; world := world0; shown := [] |}
  ∧ chatHistory
      (page (handleChatSend
               {| env := env_offline; trim := trim services0;
                  sendMessage := λ _ _, inl (ServiceError "Failed to fetch");
                  generateStory := generateStory services0;
                  JSON_parse_story := JSON_parse_story services0 |} ui0))
    = chatHistory (page ui0)
      ++ [ {| role := user; messageText := chatInput (page ui0) |} ].
Proof.
  split.
  - apply (proj1 (proj2 (X21_chat_keeps services0
                           {| page := blank_page; world := world0;
                              shown := [] |}))).
    right. reflexivity.
  - apply (proj1 (proj2 (proj2
             (X21_chat_keeps
                {| env := env_offline; trim := trim services0;
                   sendMessage := λ _ _, inl (ServiceError "Failed to fetch");
                   generateStory := generateStory services0;
                   JSON_parse_story := JSON_parse_story services0 |} ui0)))
             (createChatSession
                (tutor_instruction "adios" "English" "Spanish"))
             (ServiceError "Failed to fetch"));
      [reflexivity | discriminate | reflexivity].
Defined.

(** ** handleGenerateStory and generateStoryFromNotes *)

(** X22. With fewer than three entries in the notebook the story handler
    asks for nothing: it shows one alert and leaves the page (the view
    included) and the audio state as they were. *)
Theorem X22_story_guard (sv : Services) (u : UI) :
  (length (notebook (appState (page u))) < 3)%nat →
  handleGenerateStory sv u
  = {| page := page u;
       world := world u;
       shown := shown u
                ++ [Alert
                      "Add at least 3 words to your notebook to create a story!"]
    |}.
Proof.
  intros Hlen. unfold handleGenerateStory.
  by destruct (Nat.ltb_spec (length (notebook (appState (page u)))) 3);
    [|lia].
Qed.

Lemma X22_witness :
  handleGenerateStory services0 ui0
  = {| page := page ui0;
       world := world ui0;
       shown := shown ui0
                ++ [Alert
                      "Add at least 3 words to your notebook to create a story!"]
    |}.
Proof. apply (X22_story_guard services0 ui0). simpl. lia. Defined.


